(** * Nuclear isotope explorer: the data pipeline of [app.py]

    A shallow embedding of the data-transforming parts of the Streamlit
    script [src/app.py]: the isotope catalog, the half-life / application
    filter, the derived market value, the country table clean-up, the two
    ranked bar charts, the decorative point cloud and the CSV download.

    Conventions.
    - A pandas [float64] cell is a primitive binary64 float ([PrimFloat]),
      so comparisons and products round and treat NaN exactly as the
      interpreter does.  An [int64] cell is a [Z].
    - A DataFrame with a fixed set of columns is a list of row records; a
      Series is the list of its cells, in row order.
    - Library calls (pandas, numpy, plotly, streamlit) are embedded by what
      they do to these values; what the script leaves to the platform (the
      argsort kernel, libm, the random generator, the file system) is a
      parameter. *)

From Stdlib Require Import String Ascii List ZArith Lia Bool Arith.
From Stdlib Require Import Floats Permutation.
Import ListNotations.

(* Decimal literals such as 5.2 stand for the nearest binary64 value, as in
   Python. *)
#[local] Set Warnings "-inexact-float".

Open Scope string_scope.
Open Scope list_scope.

(** ** Float helpers *)

(** numpy's cast of an [int64] cell to [float64]: the nearest binary64
    value, ties to even. *)
Definition float_of_int (z : Z) : float :=
  SF2Prim (binary_normalize prec emax z 0%Z false).

(** [x >= v] on floats; false as soon as one side is NaN. *)
Definition fge (x v : float) : bool := (v <=? x)%float.
Definition fle (x v : float) : bool := (x <=? v)%float.

(** ** The isotope table *)

Record isotope := mk_isotope {
  Isotope : string;
  Half_Life : float;
  Production_Method : string;
  Primary_Use : string;
  Global_Production : Z;
  Cost_per_GBq : float;
  Protons : Z;
  Neutrons : Z;
  Applications : string
}.

(** The column labels of the frame, in the order the dict literal gives. *)
Definition isotope_columns : list string :=
  [ "Isotope"; "Half-Life"; "Production_Method"; "Primary_Use";
    "Global_Production (TBq/year)"; "Cost_per_GBq (USD)";
    "Protons"; "Neutrons"; "Applications" ].

Definition get_isotope_data : list isotope :=
  [ mk_isotope "Tc-99m" 6.0 "Reactor" "Medical" 150000 250 43 56 "Medical imaging";
    mk_isotope "I-131" 8.0 "Reactor" "Medical" 30000 150 53 78 "Thyroid treatment";
    mk_isotope "Co-60" 1925.0 "Reactor" "Industrial" 1500 50 27 33 "Sterilization";
    mk_isotope "Mo-99" 66.0 "Reactor" "Medical" 300000 200 42 57 "Medical isotope gen";
    mk_isotope "Xe-133" 5.2 "Fission" "Medical" 50000 300 54 79 "Lung ventilation";
    mk_isotope "Ir-192" 74.0 "Reactor" "Industrial" 2000 70 77 115 "Industrial radiography";
    mk_isotope "C-14" 5730000.0 "Accelerator" "Research" 100 5000 6 8 "Carbon dating";
    mk_isotope "U-235" 703800000.0 "Mining" "Energy" 500000 0.5 92 143 "Nuclear fuel" ].

(** ** Boolean masks and row selection *)

(** [s >= v], [s <= v] and [s.isin(values)], cell by cell. *)
Definition series_ge (s : list float) (v : float) : list bool :=
  map (fun x => fge x v) s.
Definition series_le (s : list float) (v : float) : list bool :=
  map (fun x => fle x v) s.
Definition isin (s : list string) (values : list string) : list bool :=
  map (fun x => existsb (String.eqb x) values) s.

(** [a & b] on two masks over the same index. *)
Definition mask_and (a b : list bool) : list bool :=
  map (fun p => fst p && snd p) (combine a b).

(** [df[mask]]: the rows whose mask cell is [True], in frame order. *)
Definition getitem_mask {A : Type} (df : list A) (mask : list bool) : list A :=
  map fst (filter snd (combine df mask)).

(** [filtered_df] of [main]: the three masks, and-ed, select the rows. *)
Definition filter_isotopes (df : list isotope)
    (half_life_filter : float * float) (selected_uses : list string)
    : list isotope :=
  getitem_mask df
    (mask_and
       (mask_and (series_ge (map Half_Life df) (fst half_life_filter))
                 (series_le (map Half_Life df) (snd half_life_filter)))
       (isin (map Primary_Use df) selected_uses)).

(** The filter as the specification words it: the rows kept are exactly
    those that satisfy [P], in input order. *)
Inductive keeps_exactly {A : Type} (P : A -> Prop) : list A -> list A -> Prop :=
| ke_nil : keeps_exactly P [] []
| ke_keep x l l' : P x -> keeps_exactly P l l' -> keeps_exactly P (x :: l) (x :: l')
| ke_drop x l l' : ~ P x -> keeps_exactly P l l' -> keeps_exactly P (x :: l) l'.

(** [lo <= half_life <= hi] and [primary_use] among the allowed uses. *)
Definition accepted (lo hi : float) (allowed_uses : list string) (r : isotope) : Prop :=
  (lo <=? Half_Life r)%float = true /\
  (Half_Life r <=? hi)%float = true /\
  In (Primary_Use r) allowed_uses.

(** The row-wise reading of the three and-ed masks. *)
Definition row_mask (lo hi : float) (uses : list string) (r : isotope) : bool :=
  fge (Half_Life r) lo && fle (Half_Life r) hi
  && existsb (String.eqb (Primary_Use r)) uses.

(** ** Derived market value *)

(** A row of the frame once the [Market_Value] column has been added. *)
Record isotope_mv := mk_isotope_mv {
  base : isotope;
  Market_Value : float
}.

Definition series_mul (a b : list float) : list float :=
  map (fun p => (fst p * snd p)%float) (combine a b).
Definition series_mul_scalar (a : list float) (k : float) : list float :=
  map (fun x => (x * k)%float) a.

(** [df['Market_Value'] = col]: the new column is appended to every row. *)
Definition setitem_Market_Value (df : list isotope) (col : list float)
    : list isotope_mv :=
  map (fun p => mk_isotope_mv (fst p) (snd p)) (combine df col).

(** [df['Global_Production (TBq/year)'] * df['Cost_per_GBq (USD)'] * 1000]:
    the integer column is cast to float by the first product. *)
Definition market_value_column (df : list isotope) : list float :=
  series_mul_scalar
    (series_mul (map float_of_int (map Global_Production df))
                (map Cost_per_GBq df))
    1000.

Definition with_market_value (df : list isotope) : list isotope_mv :=
  setitem_Market_Value df (market_value_column df).

(** The value the formula gives one row. *)
Definition market_value (global_production : Z) (cost_per_unit : float) : float :=
  (float_of_int global_production * cost_per_unit * 1000)%float.

(** ** Calls that may raise *)

(** A Python exception: its class name and its message. *)
Inductive exn := PyException (kind msg : string).

Inductive result (A : Type) : Type :=
| Ok (a : A)
| Raise (e : exn).
Arguments Ok {A} a.
Arguments Raise {A} e.

Definition bind {A B : Type} (m : result A) (k : A -> result B) : result B :=
  match m with
  | Ok a => k a
  | Raise e => Raise e
  end.

Notation "x <- m ;; k" := (bind m (fun x => k))
  (at level 61, m at next level, right associativity).

Definition raises {A : Type} (m : result A) : Prop := exists e, m = Raise e.

(** ** [sort_values(by, ascending=False)]

    pandas sorts a frame by one column through [nargsort]: the NaN keys are
    set apart, the other keys are reversed, handed to numpy's [argsort],
    and the positions it returns are mapped back and reversed again; the
    NaN positions go last.  The script leaves [kind] at its default
    ('quicksort'), so the argsort kernel is whatever numpy provides: it is
    a parameter here. *)

(** [l[indexer]] / [take]: the elements at the given positions.  A position
    outside the list selects nothing (numpy raises there; the positions an
    argsort returns are always inside). *)
Definition sel {A : Type} (l : list A) (i : nat) : list A :=
  match nth_error l i with
  | Some x => [x]
  | None => []
  end.
Definition take {A : Type} (l : list A) (indexer : list nat) : list A :=
  flat_map (sel l) indexer.

(** [isna(items)] *)
Definition isna (items : list float) : list bool := map is_nan items.

(** The keys [nargsort] hands to the kernel: the non-NaN keys, reversed. *)
Definition nargsort_keys (items : list float) : list float :=
  rev (getitem_mask items (map negb (isna items))).

Definition nargsort_desc (argsort : list float -> list nat)
    (items : list float) : list nat :=
  let idx := seq 0 (length items) in
  let mask := isna items in
  let non_nan_idx := getitem_mask idx (map negb mask) in
  let nan_idx := getitem_mask idx mask in
  let non_nans := nargsort_keys items in
  let non_nan_idx := rev non_nan_idx in
  let indexer := take non_nan_idx (argsort non_nans) in
  let indexer := rev indexer in
  indexer ++ nan_idx.

Definition sort_values_desc {A : Type} (argsort : list float -> list nat)
    (by_ : A -> float) (df : list A) : list A :=
  take df (nargsort_desc argsort (map by_ df)).

(** What numpy promises of [argsort] on an array [a] without NaN: the
    result lists every position once, and the keys read in that order do
    not decrease. *)
Definition sorts (argsort : list float -> list nat) (a : list float) : Prop :=
  Permutation (argsort a) (seq 0 (length a)) /\
  ForallOrdPairs (fun x y => (x <=? y)%float = true) (take a (argsort a)).

(** The key at a position ([nan] outside the array). *)
Definition key_at (a : list float) (p : nat) : float := nth p a nan.

(** A run of positions keeps equal keys in array order. *)
Definition ties_in_order (a : list float) (indexer : list nat) : Prop :=
  ForallOrdPairs
    (fun p q => (key_at a p =? key_at a q)%float = true -> p < q) indexer.

(** The kernel is stable on [a] (what 'mergesort' and 'stable' promise and
    'quicksort' does not). *)
Definition stable_on (argsort : list float -> list nat) (a : list float) : Prop :=
  ties_in_order a (argsort a).

(** Two kernels that meet the argsort contract: insertion sort placing a
    key after the equal keys already placed (stable), and insertion sort
    placing it before them (not stable). *)
Fixpoint insert_key (before : float -> float -> bool) (x : nat * float)
    (l : list (nat * float)) : list (nat * float) :=
  match l with
  | [] => [x]
  | y :: l' =>
      if before (snd x) (snd y) then x :: l
      else y :: insert_key before x l'
  end.

Definition insertion_argsort (before : float -> float -> bool)
    (a : list float) : list nat :=
  map fst
    (fold_left (fun acc x => insert_key before x acc)
               (combine (seq 0 (length a)) a) []).

Definition argsort_stable : list float -> list nat :=
  insertion_argsort (fun x y => (x <? y)%float).
Definition argsort_unstable : list float -> list nat :=
  insertion_argsort (fun x y => (x <=? y)%float).

(** ** Market-value bars *)

(** The positions [sort_values] reads the rows at. *)
Definition market_value_order (argsort : list float -> list nat)
    (df : list isotope) : list nat :=
  nargsort_desc argsort (map Market_Value (with_market_value df)).

(** [df.sort_values('Market_Value', ascending=False)], the frame handed to
    [px.bar] (x = Isotope, y = Market_Value, color = Primary_Use). *)
Definition make_market_value_bars (argsort : list float -> list nat)
    (df : list isotope) : list isotope_mv :=
  sort_values_desc argsort Market_Value (with_market_value df).

(** Rows in descending order of a key, rows with a NaN key last. *)
Definition descending {A : Type} (key : A -> float) (l : list A) : Prop :=
  ForallOrdPairs
    (fun r1 r2 => is_nan (key r2) = true \/ (key r2 <=? key r1)%float = true) l.

(** Rows whose sort key is NaN, and the others. *)
Definition nan_key {A : Type} (key : A -> float) (r : A) : bool := is_nan (key r).
Definition num_key {A : Type} (key : A -> float) (r : A) : bool := negb (is_nan (key r)).

(** ** The country table *)

(** A cell of an [object] column: a Python [str], or a float (NaN where
    the CSV field was empty). *)
Inductive cell :=
| Str (s : string)
| Num (f : float).

(** A row of the country frame; [T] is the type of the production column
    ([cell] as loaded, [float] after [pd.to_numeric]).  [None] stands for a
    missing (NaN) text field. *)
Record country_row (T : Type) := mk_country {
  Country : option string;
  Major_Isotopes : option string;
  Total_Production_TBq : T
}.
Arguments mk_country {T} _ _ _.
Arguments Country {T} _.
Arguments Major_Isotopes {T} _.
Arguments Total_Production_TBq {T} _.

(** The sample frame [load_country_data] builds in both fallback paths. *)
Definition sample_country_data : list (country_row cell) :=
  [ mk_country (Some "USA") (Some "192I, 125I") (Num 30.4);
    mk_country (Some "Canada") (Some "99Mo, 131I") (Num 15000.0);
    mk_country (Some "Germany") (Some "18F, 123I") (Num 30.0);
    mk_country (Some "France") (Some "99Mo, 153Sm") (Num 4063.5);
    mk_country (Some "Japan") (Some "192Ir, 169Yb") (Num 982.4);
    mk_country (Some "Australia") (Some "192Ir, 169Yb") (Num 1551.9) ].

(** What the script sees of the file system for
    ["isotope_production_by_country_2002.csv"]: whether the path exists,
    and what [pd.read_csv] does with it (a frame, or an exception). *)
Record file_system := mk_fs {
  path_exists : bool;
  read_csv : result (list (country_row cell))
}.

Definition exn_message (e : exn) : string :=
  match e with PyException _ msg => msg end.

(** [load_country_data]: the value returned (or the exception that
    escapes) and the [st.warning] messages emitted. *)
Definition load_country_data (fs : file_system)
    : result (list (country_row cell)) * list string :=
  let try_body :=
    if path_exists fs then read_csv fs
    else Ok sample_country_data in
  match try_body with
  | Ok df => (Ok df, [])
  | Raise e =>
      (* except Exception as e *)
      (Ok sample_country_data,
       [("Could not load country data: " ++ exn_message e)%string])
  end.

(** [cell != s], as the elementwise comparison of a column with a string. *)
Definition cell_ne (c : cell) (s : string) : bool :=
  match c with
  | Str t => negb (String.eqb t s)
  | Num _ => true
  end.

(** [country_df[country_df['Total_Production_TBq'] != 'NR']] *)
Definition drop_not_reported (df : list (country_row cell))
    : list (country_row cell) :=
  getitem_mask df (map (fun c => cell_ne c "NR") (map Total_Production_TBq df)).

(** [pd.to_numeric(_, errors='coerce')] on one cell: a number stays, a
    string is parsed, and what does not parse becomes NaN.  The parser of
    numeric text is pandas' own; it is a parameter. *)
Definition to_numeric (parse : string -> option float) (c : cell) : float :=
  match c with
  | Num f => f
  | Str s => match parse s with Some f => f | None => nan end
  end.

Definition set_total {T U : Type} (r : country_row T) (v : U) : country_row U :=
  mk_country (Country r) (Major_Isotopes r) v.

(** [df['Total_Production_TBq'] = pd.to_numeric(df['Total_Production_TBq'],
    errors='coerce')] *)
Definition coerce_total (parse : string -> option float)
    (df : list (country_row cell)) : list (country_row float) :=
  map (fun p => set_total (fst p) (snd p))
      (combine df (map (to_numeric parse) (map Total_Production_TBq df))).

Definition is_some {T : Type} (o : option T) : bool :=
  match o with Some _ => true | None => false end.

(** [notna] on every column of a row. *)
Definition notna_row (r : country_row float) : bool :=
  is_some (Country r) && is_some (Major_Isotopes r)
  && negb (is_nan (Total_Production_TBq r)).

(** [df.dropna()]: rows with a missing value in any column go. *)
Definition dropna (df : list (country_row float)) : list (country_row float) :=
  getitem_mask df (map notna_row df).

(** [filtered_country_df] of [main]. *)
Definition clean_country_production (parse : string -> option float)
    (country_df : list (country_row cell)) : list (country_row float) :=
  dropna (coerce_total parse (drop_not_reported country_df)).

(** A production cell that is a number (not NaN), or text that the parser
    reads as one. *)
Definition numeric (parse : string -> option float) (c : cell) : Prop :=
  match c with
  | Num f => is_nan f = false
  | Str s => exists f, parse s = Some f /\ is_nan f = false
  end.

(** The rows that survive the clean-up: reported, numeric, no text field
    missing. *)
Definition reported_numeric (parse : string -> option float)
    (r : country_row cell) : Prop :=
  Total_Production_TBq r <> Str "NR" /\
  numeric parse (Total_Production_TBq r) /\
  Country r <> None /\ Major_Isotopes r <> None.

(** [filtered_country_df.sort_values('Total_Production_TBq',
    ascending=False)], the frame handed to [px.bar]. *)
Definition make_country_bars (argsort : list float -> list nat)
    (df : list (country_row float)) : list (country_row float) :=
  sort_values_desc argsort Total_Production_TBq df.

Definition country_order (argsort : list float -> list nat)
    (df : list (country_row float)) : list nat :=
  nargsort_desc argsort (map Total_Production_TBq df).

(** Country names in ascending order ([str] comparison). *)
Definition name_le (r1 r2 : country_row float) : bool :=
  match Country r1, Country r2 with
  | Some a, Some b => String.leb a b
  | _, _ => false
  end.

(** Rows with equal production stand in ascending order of country name. *)
Definition ties_by_name (l : list (country_row float)) : Prop :=
  ForallOrdPairs
    (fun r1 r2 =>
       (Total_Production_TBq r1 =? Total_Production_TBq r2)%float = true ->
       name_le r1 r2 = true) l.

(** ** Logarithm of the half-life *)

(** [np.log10] on one [float64]: it never raises.  Below zero the value is
    NaN and at zero it is minus infinity (numpy reports both through a
    [RuntimeWarning] only); NaN stays NaN.  Above zero the value is libm's,
    a parameter. *)
Definition np_log10 (log10_pos : float -> float) (x : float) : float :=
  if (x <? 0)%float then nan
  else if (x =? 0)%float then neg_infinity
  else if is_nan x then nan
  else log10_pos x.


(** [np.log10(filtered_df["Half-Life"])] *)
Definition log_half_life_series (log10_pos : float -> float)
    (s : list float) : result (list float) :=
  Ok (map (np_log10 log10_pos) s).

(** A marker of the "Isotopes" trace. *)
Record point3d := mk_point3d {
  p_x : Z;           (* Protons *)
  p_y : Z;           (* Neutrons *)
  p_z : float;       (* log10 of the half-life *)
  p_color : Z;       (* Global_Production *)
  p_text : string    (* Isotope *)
}.

Definition make_3d_points (log10_pos : float -> float)
    (filtered_df : list isotope) : result (list point3d) :=
  z <- log_half_life_series log10_pos (map Half_Life filtered_df) ;;
  Ok (map (fun p => mk_point3d (Protons (fst p)) (Neutrons (fst p)) (snd p)
                      (Global_Production (fst p)) (Isotope (fst p)))
          (combine filtered_df z)).

(** ** The log-log scatter *)

(** A marker of [px.scatter(df, x=cost, y=production, size=half-life,
    color=use, hover_name=isotope, log_x=True, log_y=True)]. *)
Record scatter_point := mk_scatter_point {
  s_x : float;       (* Cost_per_GBq (USD) *)
  s_y : Z;           (* Global_Production (TBq/year) *)
  s_size : float;    (* Half-Life *)
  s_color : string;  (* Primary_Use *)
  s_name : string    (* Isotope *)
}.

(** plotly validates marker sizes (a number, at least 0) and raises
    [ValueError] otherwise; it does not look at the sign of the
    coordinates, log axes or not. *)
Definition valid_size (h : float) : bool := (0 <=? h)%float.

Definition scatter_of (r : isotope) : scatter_point :=
  mk_scatter_point (Cost_per_GBq r) (Global_Production r) (Half_Life r)
                   (Primary_Use r) (Isotope r).

(** The values of a column in order of first appearance. *)
Fixpoint unique (l : list string) : list string :=
  match l with
  | [] => []
  | x :: l' => x :: filter (fun y => negb (String.eqb y x)) (unique l')
  end.

(** [color="Primary_Use"]: one trace for each use, in order of first
    appearance, holding the markers of the rows with that use in frame
    order. *)
Definition scatter_traces (df : list isotope)
    : list (string * list scatter_point) :=
  map (fun u =>
         (u, map scatter_of
               (filter (fun r => String.eqb (Primary_Use r) u) df)))
      (unique (map Primary_Use df)).

Definition make_scatter_points (df : list isotope)
    : result (list (string * list scatter_point)) :=
  if forallb valid_size (map Half_Life df) then Ok (scatter_traces df)
  else
    Raise (PyException "ValueError"
             "Invalid element(s) received for the 'size' property of scatter.marker").

(** ** The decorative point cloud *)

Definition np_pi : float := 3.141592653589793%float.

Definition float_of_nat (n : nat) : float := float_of_int (Z.of_nat n).

(** The three lists the loops append to, and the state of numpy's global
    random generator. *)
Record background_state (G : Type) := mk_bg {
  bg_x : list float;
  bg_y : list float;
  bg_z : list float;
  bg_gen : G
}.
Arguments mk_bg {G} _ _ _ _.
Arguments bg_x {G} _.
Arguments bg_y {G} _.
Arguments bg_z {G} _.
Arguments bg_gen {G} _.

Section Background.
Context {G : Type}.
(** [np.cos], [np.sin] and [np.random.normal(loc, scale)]; the latter
    returns a draw and the next generator state. *)
Variables (np_cos np_sin : float -> float).
Variable normal : float -> float -> G -> float * G.

(** The body of the inner loop, for ring [i] and step [j]. *)
Definition background_step (i j : nat) (st : background_state G)
    : background_state G :=
  let angle := (2 * np_pi * float_of_nat j / 10)%float in
  let '(e1, g1) := normal 0 0.1 (bg_gen st) in
  let x := bg_x st ++ [(np_cos angle + e1)%float] in
  let '(e2, g2) := normal 0 0.1 g1 in
  let y := bg_y st ++ [(np_sin angle + e2)%float] in
  let '(e3, g3) := normal 0 0.1 g2 in
  let z := bg_z st ++ [(float_of_nat i / float_of_nat 10 + e3)%float] in
  mk_bg x y z g3.

(** [for i in range(100): for j in range(10): ...] *)
Definition background_loops (st : background_state G) : background_state G :=
  fold_left
    (fun st i => fold_left (fun st j => background_step i j st) (seq 0 10) st)
    (seq 0 100) st.

(** [create_atomic_background]: the rows of the frame with columns x, y,
    z, and the generator state it leaves. *)
Definition create_atomic_background (g : G)
    : list (float * float * float) * G :=
  let st := background_loops (mk_bg [] [] [] g) in
  (combine (combine (bg_x st) (bg_y st)) (bg_z st), bg_gen st).

(** The generator state after [n] draws of [normal(0, 0.1)], and the
    [n]-th such draw. *)
Fixpoint gen_after (g : G) (n : nat) : G :=
  match n with
  | O => g
  | S n => snd (normal 0 0.1 (gen_after g n))
  end.
Definition draw (g : G) (n : nat) : float := fst (normal 0 0.1 (gen_after g n)).

(** The point the specification gives pair [(i, j)], with the three
    noise terms taken from draws [3k], [3k+1] and [3k+2], [k = 10 i + j]. *)
Definition ring_point (g : G) (i j : nat) : float * float * float :=
  let angle := (2 * np_pi * float_of_nat j / 10)%float in
  let k := 10 * i + j in
  ((np_cos angle + draw g (3 * k))%float,
   (np_sin angle + draw g (3 * k + 1))%float,
   (float_of_nat i / float_of_nat 10 + draw g (3 * k + 2))%float).

(** The invariant of the loops: the three lists hold the coordinates of
    the points appended so far, and three draws were made for each. *)
Definition background_invariant (g : G) (pts : list (float * float * float))
    (st : background_state G) : Prop :=
  bg_x st = map (fun p => fst (fst p)) pts /\
  bg_y st = map (fun p => snd (fst p)) pts /\
  bg_z st = map snd pts /\
  bg_gen st = gen_after g (3 * length pts).
End Background.

(** ** The CSV download *)

(** A field of the CSV text, before it is printed. *)
Inductive csv_field :=
| FStr (s : string)
| FInt (z : Z)
| FFloat (f : float).

Definition csv_row (index : nat) (r : isotope) : list csv_field :=
  [ FInt (Z.of_nat index); FStr (Isotope r); FFloat (Half_Life r);
    FStr (Production_Method r); FStr (Primary_Use r);
    FInt (Global_Production r); FFloat (Cost_per_GBq r);
    FInt (Protons r); FInt (Neutrons r); FStr (Applications r) ].

(** [df.to_csv()] on the isotope frame: the header (an empty label for the
    index, then the columns), then one line per row, index first. *)
Definition to_csv (df : list isotope) : list (list csv_field) :=
  (FStr "" :: map FStr isotope_columns)
  :: map (fun p => csv_row (fst p) (snd p)) (combine (seq 0 (length df)) df).

(** ** The script *)

(** The values the sidebar and the selectbox return in one run. *)
Record widgets := mk_widgets {
  view_3d : bool;
  half_life_filter : float * float;
  selected_uses : list string;
  selected_isotope : string
}.

(** What the platform supplies in one run. *)
Record platform (G : Type) := mk_platform {
  argsort : list float -> list nat;          (* numpy's argsort kernel *)
  log10_pos : float -> float;                (* libm log10 above zero *)
  np_cos : float -> float;
  np_sin : float -> float;
  normal : float -> float -> G -> float * G; (* np.random.normal *)
  generator : G;                             (* numpy's generator state *)
  parse_float : string -> option float;      (* to_numeric's text parser *)
  files : file_system
}.
Arguments mk_platform {G} _ _ _ _ _ _ _ _.
Arguments argsort {G} _.
Arguments log10_pos {G} _.
Arguments np_cos {G} _.
Arguments np_sin {G} _.
Arguments normal {G} _.
Arguments generator {G} _.
Arguments parse_float {G} _.
Arguments files {G} _.

(** What one run hands to the page. *)
Record page := mk_page {
  atomic_structure : option (list (float * float * float));
  isotopes_trace : list point3d;
  iso_data : isotope;
  download : list (list csv_field);
  economic_scatter : list (string * list scatter_point);
  market_value_bars : list isotope_mv;
  country_bars : list (country_row float);
  major_isotopes : list (option string * option string);
  warnings : list string
}.

(** [.iloc[0]] *)
Definition iloc0 {A : Type} (df : list A) : result A :=
  match df with
  | r :: _ => Ok r
  | [] => Raise (PyException "IndexError" "single positional indexer is out-of-bounds")
  end.

(** [main], tab by tab.  The CSV frame is taken to have the three columns
    the script reads (a frame without one would raise [KeyError] in the
    third tab, which this frame type does not represent); the fourth tab,
    whose selectbox offers the keys of its dict only, is
    [application_bullets] further down and adds nothing to the page
    record. *)
Definition main {G : Type} (pf : platform G) (w : widgets) : result page :=
  (* tab1, col1 *)
  let df := get_isotope_data in
  let filtered_df := filter_isotopes df (half_life_filter w) (selected_uses w) in
  let atomic_bg :=
    if view_3d w then
      Some (fst (create_atomic_background (np_cos pf) (np_sin pf) (normal pf)
                                          (generator pf)))
    else None in
  trace <- make_3d_points (log10_pos pf) filtered_df ;;
  (* tab1, col2 *)
  iso <- iloc0 (getitem_mask df
                  (map (fun x => String.eqb x (selected_isotope w))
                       (map Isotope df))) ;;
  let csv := to_csv df in
  (* tab2 *)
  scatter <- make_scatter_points df ;;
  let bars := make_market_value_bars (argsort pf) df in
  (* tab3 *)
  let '(loaded, warned) := load_country_data (files pf) in
  country_df <- loaded ;;
  let filtered_country_df := clean_country_production (parse_float pf) country_df in
  let cbars := make_country_bars (argsort pf) filtered_country_df in
  Ok (mk_page atomic_bg trace iso csv scatter bars cbars
        (map (fun r => (Country r, Major_Isotopes r)) country_df)
        warned).

(** The run with other filter values, everything else unchanged. *)
Definition with_filter (w : widgets) (half_life : float * float)
    (uses : list string) : widgets :=
  mk_widgets (view_3d w) half_life uses (selected_isotope w).

(** The page without the isotopes trace. *)
Definition beside_isotopes_trace (p : page) :=
  (atomic_structure p, iso_data p, download p, economic_scatter p,
   market_value_bars p, country_bars p, major_isotopes p, warnings p).

Definition map_result {A B : Type} (f : A -> B) (m : result A) : result B :=
  match m with
  | Ok a => Ok (f a)
  | Raise e => Raise e
  end.

(** The frame [load_country_data] returns (it always returns one). *)
Definition loaded_country_data (fs : file_system) : list (country_row cell) :=
  match fst (load_country_data fs) with
  | Ok df => df
  | Raise _ => []
  end.

(** The row-wise reading of the country clean-up. *)
Definition coerced (parse : string -> option float) (r : country_row cell)
    : country_row float :=
  set_total r (to_numeric parse (Total_Production_TBq r)).

Definition survives (parse : string -> option float) (r : country_row cell) : bool :=
  cell_ne (Total_Production_TBq r) "NR" && notna_row (coerced parse r).

(** A stand-in platform to run the script on: the stable kernel, no CSV
    file, a generator that always draws 0, and identity in place of the
    libm functions. *)
Definition stand_in_platform : platform unit :=
  mk_platform argsort_stable (fun x => x) (fun x => x) (fun x => x)
    (fun _ _ g => (0%float, g)) tt (fun _ => None)
    (mk_fs false (Ok [])).

(** The widget values of a first run: the defaults of the sidebar, and the
    first option of the selectbox. *)
Definition default_widgets : widgets :=
  mk_widgets true (1.0, 100000.0)%float ["Medical"; "Industrial"] "Tc-99m".

(** ** Tables with ties *)

(** Three isotopes, the last two of equal market value (4.5e9). *)
Definition tied_isotopes : list isotope :=
  [ mk_isotope "Tc-99m" 6.0 "Reactor" "Medical" 150000 250 43 56 "Medical imaging";
    mk_isotope "I-131" 8.0 "Reactor" "Medical" 30000 150 53 78 "Thyroid treatment";
    mk_isotope "Y-90" 64.0 "Reactor" "Medical" 45000 100 39 51 "Cancer therapy" ].

(** Two countries of equal production, in both orders. *)
Definition austria_germany : list (country_row float) :=
  [ mk_country (Some "Austria") (Some "99Mo") 30.0%float;
    mk_country (Some "Germany") (Some "18F, 123I") 30.0%float ].
Definition germany_austria : list (country_row float) :=
  [ mk_country (Some "Germany") (Some "18F, 123I") 30.0%float;
    mk_country (Some "Austria") (Some "99Mo") 30.0%float ].

(** ** The order of binary64 values *)

(** The place of a (non-NaN) float in the order [<=?] compares by: its
    class, then exponent and mantissa (negated below zero). *)
Definition sf_rank (f : spec_float) : Z * (Z * Z) :=
  match f with
  | S754_nan => (0, (0, 0))%Z
  | S754_infinity true => (-2, (0, 0))%Z
  | S754_infinity false => (2, (0, 0))%Z
  | S754_zero _ => (0, (0, 0))%Z
  | S754_finite true m e => (-1, (- e, - Zpos m))%Z
  | S754_finite false m e => (1, (e, Zpos m))%Z
  end.

Definition lex_le (p q : Z * (Z * Z)) : Prop :=
  (fst p < fst q \/
   (fst p = fst q /\
    (fst (snd p) < fst (snd q) \/
     (fst (snd p) = fst (snd q) /\ snd (snd p) <= snd (snd q)))))%Z.

Definition lex_lt (p q : Z * (Z * Z)) : Prop :=
  (fst p < fst q \/
   (fst p = fst q /\
    (fst (snd p) < fst (snd q) \/
     (fst (snd p) = fst (snd q) /\ snd (snd p) < snd (snd q)))))%Z.

Definition rank (x : float) : Z * (Z * Z) := sf_rank (Prim2SF x).

(** ** The style sheet *)

(** An element the script hands to the page. *)
Inductive element :=
| Markdown (body : string)
| Warning (message : string).

(** What [local_css] sees of the file it is given: whether the path
    exists, and what opening and reading it gives (the text, or an
    exception). *)
Record text_file := mk_text_file {
  file_exists : bool;
  file_read : result string
}.

Definition double_quote : string := String (ascii_of_nat 34) EmptyString.

(** The markup of the [else] branch of [local_css]. *)
Definition fallback_style : string :=
  ("
            <style>
            .stApp {
                background: linear-gradient(135deg, #0f2027, #203a43, #2c5364);
                color: #ffffff;
            }
            h1, h2, h3, h4, h5, h6 {
                color: #4fc3f7;
            }
            .st-bb {
                background-color: rgba(25, 55, 75, 0.7);
            }
            .st-bq {
                border-left-color: #4fc3f7;
            }
            .stSelectbox, .stSlider, .stMultiSelect {
                background-color: rgba(25, 55, 75, 0.7);
            }
            .stButton>button {
                background: linear-gradient(to right, #2193b0, #6dd5ed);
                color: white;
                border: none;
            }
            .stDownloadButton>button {
                background: linear-gradient(to right, #373b44, #4286f4);
                color: white;
                border: none;
            }
            .stTab {
                background-color: rgba(15, 30, 45, 0.7);
            }
            .stTab [aria-selected=" ++ double_quote ++ "true" ++ double_quote ++ "] {
                background-color: #2193b0;
                color: white;
            }
            </style>
            ")%string.

(** [local_css(file_name)]: the elements it emits (it returns [None]). *)
Definition local_css (f : text_file) : result unit * list element :=
  let try_body : result (list element) :=
    if file_exists f then
      content <- file_read f ;;
      Ok [Markdown ("<style>" ++ content ++ "</style>")%string]
    else Ok [Markdown fallback_style] in
  match try_body with
  | Ok emitted => (Ok tt, emitted)
  | Raise e =>
      (* except Exception as e *)
      (Ok tt, [Warning ("CSS loading failed: " ++ exn_message e)%string])
  end.

(** ** The applications tab *)

(** The [applications] dict of the fourth tab, in insertion order. *)
Definition applications : list (string * list string) :=
  [ ("Medical", ["Tc-99m: Diagnostic imaging"; "I-131: Thyroid treatment";
                 "Y-90: Cancer therapy"]);
    ("Industrial", ["Co-60: Sterilization"; "Ir-192: Industrial radiography";
                    "Cs-137: Moisture gauges"]);
    ("Agriculture", ["P-32: Fertilizer studies";
                     "C-14: Photosynthesis research"]);
    ("Research", ["C-14: Carbon dating"; "H-3: Tracer studies"]) ].

(** [d[key]]: the value of the key, [KeyError] without it.  The payload
    kept here is the key itself ([e.args[0]]), not the quoted text
    [str(e)] prints. *)
Fixpoint dict_getitem {V : Type} (d : list (string * V)) (key : string)
    : result V :=
  match d with
  | [] => Raise (PyException "KeyError" key)
  | (k, v) :: d' => if String.eqb k key then Ok v else dict_getitem d' key
  end.

(** [list(d.keys())], the options of the sector selectbox. *)
Definition dict_keys {V : Type} (d : list (string * V)) : list string :=
  map fst d.

(** [for app in applications[selected_app]: st.markdown(f"- {app}")] *)
Definition application_bullets (d : list (string * list string))
    (selected_app : string) : result (list element) :=
  apps <- dict_getitem d selected_app ;;
  Ok (map (fun app => Markdown ("- " ++ app)%string) apps).
(** * Theorems *)

Section FilterLemmas.
Context {A : Type}.

Lemma getitem_mask_cons (x : A) (l : list A) (b : bool) (m : list bool) :
  getitem_mask (x :: l) (b :: m) =
  if b then x :: getitem_mask l m else getitem_mask l m.
Proof. unfold getitem_mask; simpl; destruct b; reflexivity. Qed.

(** Selecting by a mask computed row by row is [List.filter]. *)
Lemma getitem_mask_map (f : A -> bool) (l : list A) :
  getitem_mask l (map f l) = filter f l.
Proof.
  induction l as [|x l IH]; [reflexivity|].
  simpl map. rewrite getitem_mask_cons, IH. reflexivity.
Qed.

Lemma keeps_exactly_filter (P : A -> Prop) (f : A -> bool) :
  (forall x, f x = true <-> P x) ->
  forall l, keeps_exactly P l (filter f l).
Proof.
  intros Hf l; induction l as [|x l IH]; simpl; [constructor|].
  destruct (f x) eqn:E.
  - apply ke_keep; [apply Hf, E | exact IH].
  - apply ke_drop; [rewrite <- Hf, E; discriminate | exact IH].
Qed.

(** The relation determines its output: there is one such subsequence. *)
Lemma keeps_exactly_unique (P : A -> Prop) (l r1 r2 : list A) :
  keeps_exactly P l r1 -> keeps_exactly P l r2 -> r1 = r2.
Proof.
  intros H1; revert r2; induction H1; intros r2 H2; inversion H2; subst;
    try reflexivity; try contradiction.
  - f_equal; auto.
  - auto.
Qed.
End FilterLemmas.

Lemma mask_and_map {A : Type} (f g : A -> bool) (l : list A) :
  mask_and (map f l) (map g l) = map (fun x => f x && g x) l.
Proof. induction l as [|x l IH]; [reflexivity|]; unfold mask_and in *; simpl; now rewrite IH. Qed.

Lemma filter_isotopes_rowwise df lo hi uses :
  filter_isotopes df (lo, hi) uses = filter (row_mask lo hi uses) df.
Proof.
  unfold filter_isotopes, series_ge, series_le, isin; simpl fst; simpl snd.
  rewrite !map_map, !mask_and_map. apply getitem_mask_map.
Qed.

Lemma row_mask_accepted lo hi uses r :
  row_mask lo hi uses r = true <-> accepted lo hi uses r.
Proof.
  unfold row_mask, accepted, fge, fle.
  rewrite !andb_true_iff, existsb_exists. split.
  - intros [[H1 H2] [u [Hu E]]]. apply String.eqb_eq in E; subst u. auto.
  - intros [H1 [H2 H3]]. repeat split; auto.
    exists (Primary_Use r); split; [exact H3 | apply String.eqb_refl].
Qed.

(** C1: [filter_isotopes] returns exactly the input rows with
    [lo <= half_life <= hi] and [primary_use] among the allowed uses, in
    input order; with no allowed use the result is the empty table. *)
Theorem filter_isotopes_exact :
  forall (df : list isotope) (lo hi : float) (allowed_uses : list string),
    keeps_exactly (accepted lo hi allowed_uses) df
                  (filter_isotopes df (lo, hi) allowed_uses)
    /\ filter_isotopes df (lo, hi) [] = [].
Proof.
  intros df lo hi uses; split.
  - rewrite filter_isotopes_rowwise.
    apply keeps_exactly_filter, row_mask_accepted.
  - rewrite filter_isotopes_rowwise.
    induction df as [|r df IH]; [reflexivity|].
    simpl. unfold row_mask at 1; simpl. rewrite andb_false_r. exact IH.
Qed.

(** The scenario of the specification: the default slider range and the
    default application choice keep six of the eight catalog rows. *)
Example filter_isotopes_default :
  map Isotope (filter_isotopes get_isotope_data (1.0, 100000.0)%float
                               ["Medical"; "Industrial"])
  = ["Tc-99m"; "I-131"; "Co-60"; "Mo-99"; "Xe-133"; "Ir-192"].
Proof. vm_compute. reflexivity. Qed.

(** ** Market value *)

Lemma with_market_value_rowwise df :
  with_market_value df =
  map (fun r => mk_isotope_mv r
                  (market_value (Global_Production r) (Cost_per_GBq r))) df.
Proof.
  unfold with_market_value, setitem_Market_Value, market_value_column,
    series_mul_scalar, series_mul, market_value.
  induction df as [|r df IH]; [reflexivity|].
  simpl in *. now rewrite IH.
Qed.

(** C2: every row of the frame with the derived column keeps its source
    fields and carries [global_production * cost_per_unit * 1000] as its
    market value; for Tc-99m (150000 TBq/year at 250 USD/GBq) that is
    37,500,000,000. *)
Theorem market_value_formula :
  forall df : list isotope,
    map base (with_market_value df) = df
    /\ Forall (fun r => Market_Value r =
                 (float_of_int (Global_Production (base r))
                  * Cost_per_GBq (base r) * 1000)%float)
              (with_market_value df)
    /\ market_value 150000 250 = 37500000000%float.
Proof.
  intros df; rewrite with_market_value_rowwise; repeat split.
  - rewrite map_map; simpl. apply map_id.
  - apply Forall_forall; intros r Hr.
    apply in_map_iff in Hr as [r0 [<- _]]. reflexivity.
Qed.

Example market_values_of_catalog :
  map Market_Value (with_market_value get_isotope_data)
  = [37500000000; 4500000000; 75000000; 60000000000;
     15000000000; 140000000; 500000000; 250000000]%float.
Proof. vm_compute. reflexivity. Qed.

(** ** Selecting by position *)

Section TakeLemmas.
Context {A : Type}.
Implicit Types (l : list A) (I J K : list nat).

Lemma take_app l I J : take l (I ++ J) = take l I ++ take l J.
Proof. apply flat_map_app. Qed.

Lemma take_cons l i I : take l (i :: I) = sel l i ++ take l I.
Proof. reflexivity. Qed.

Lemma sel_length l i : length (sel l i) <= 1.
Proof. unfold sel; destruct (nth_error l i); simpl; lia. Qed.

Lemma sel_rev l i : rev (sel l i) = sel l i.
Proof. unfold sel; destruct (nth_error l i); reflexivity. Qed.

Lemma take_rev l I : take l (rev I) = rev (take l I).
Proof.
  induction I as [|i I IH]; [reflexivity|].
  simpl rev. rewrite take_app, IH, take_cons, rev_app_distr, sel_rev.
  unfold take at 2; simpl. now rewrite app_nil_r.
Qed.

Lemma sel_lt l i : i < length l -> exists x, nth_error l i = Some x /\ sel l i = [x].
Proof.
  intros H. unfold sel. destruct (nth_error l i) as [x|] eqn:E.
  - eauto.
  - apply nth_error_None in E; lia.
Qed.

Lemma take_shift x l I : take (x :: l) (map S I) = take l I.
Proof. unfold take. rewrite flat_map_concat_map, map_map, <- flat_map_concat_map. reflexivity. Qed.

Lemma take_seq_all l : take l (seq 0 (length l)) = l.
Proof.
  induction l as [|x l IH]; [reflexivity|].
  simpl length. simpl seq. rewrite take_cons, <- seq_shift, take_shift, IH.
  reflexivity.
Qed.

Lemma take_length l I :
  Forall (fun i => i < length l) I -> length (take l I) = length I.
Proof.
  induction 1 as [|i I Hi _ IH]; [reflexivity|].
  rewrite take_cons, length_app, IH.
  destruct (sel_lt l i Hi) as [x [_ ->]]. reflexivity.
Qed.

Lemma take_nth_error l I k :
  Forall (fun i => i < length l) I ->
  nth_error (take l I) k =
  match nth_error I k with Some i => nth_error l i | None => None end.
Proof.
  intros H; revert k; induction H as [|i I Hi _ IH]; intros k.
  - destruct k; reflexivity.
  - rewrite take_cons. destruct (sel_lt l i Hi) as [x [E ->]].
    destruct k as [|k]; simpl; [now rewrite E | apply IH].
Qed.

Lemma take_perm l K :
  Permutation K (seq 0 (length l)) -> Permutation (take l K) l.
Proof.
  intros H. rewrite <- (take_seq_all l) at 2.
  unfold take. now apply Permutation_flat_map.
Qed.

(** The positions of the rows a mask keeps, read back, are those rows. *)
Lemma getitem_mask_map_l {B C : Type} (g : B -> C) (l : list B) (m : list bool) :
  getitem_mask (map g l) m = map g (getitem_mask l m).
Proof.
  revert m; induction l as [|x l IH]; intros [|b m]; try reflexivity.
  simpl map. rewrite !getitem_mask_cons, IH. destruct b; reflexivity.
Qed.

Lemma take_positions (f : A -> bool) l :
  take l (getitem_mask (seq 0 (length l)) (map f l)) = filter f l.
Proof.
  induction l as [|x l IH]; [reflexivity|].
  simpl length. simpl seq. simpl map.
  rewrite getitem_mask_cons, <- seq_shift, getitem_mask_map_l. simpl filter.
  destruct (f x).
  - rewrite take_cons, take_shift, IH. reflexivity.
  - rewrite take_shift, IH. reflexivity.
Qed.

Lemma positions_lt (m : list bool) n :
  Forall (fun i => i < n) (getitem_mask (seq 0 n) m).
Proof.
  apply Forall_forall. intros i Hi. unfold getitem_mask in Hi.
  apply in_map_iff in Hi as [[j b] [<- Hj]].
  apply filter_In in Hj as [Hj _]. apply in_combine_l in Hj.
  apply in_seq in Hj. simpl. lia.
Qed.
End TakeLemmas.

Lemma take_map {A B : Type} (g : A -> B) (l : list A) (I : list nat) :
  take (map g l) I = map g (take l I).
Proof.
  induction I as [|i I IH]; [reflexivity|].
  rewrite !take_cons, map_app, IH. f_equal.
  unfold sel. rewrite nth_error_map. destruct (nth_error l i); reflexivity.
Qed.

Lemma take_take {A : Type} (l : list A) (J K : list nat) :
  Forall (fun j => j < length l) J ->
  take (take l J) K = take l (take J K).
Proof.
  intros HJ. induction K as [|k K IH]; [reflexivity|].
  rewrite !take_cons, take_app, IH. f_equal.
  unfold sel. rewrite take_nth_error by exact HJ.
  destruct (nth_error J k) as [j|]; [|reflexivity].
  unfold take; simpl. rewrite app_nil_r. reflexivity.
Qed.

(** ** Relations over ordered pairs *)

Section OrdPairs.
Context {A : Type}.

Lemma FOP_app (R : A -> A -> Prop) (s t : list A) :
  ForallOrdPairs R s -> ForallOrdPairs R t ->
  (forall x y, In x s -> In y t -> R x y) ->
  ForallOrdPairs R (s ++ t).
Proof.
  induction 1 as [|a s Ha _ IH]; intros Ht Hst; [exact Ht|].
  simpl. constructor.
  - apply Forall_app; split; [exact Ha|].
    apply Forall_forall; intros y Hy. apply Hst; [now left | exact Hy].
  - apply IH; [exact Ht|]. intros x y Hx Hy. apply Hst; [now right | exact Hy].
Qed.

Lemma FOP_rev (R : A -> A -> Prop) (l : list A) :
  ForallOrdPairs R l -> ForallOrdPairs (fun x y => R y x) (rev l).
Proof.
  induction 1 as [|a l Ha _ IH]; [constructor|].
  simpl. apply FOP_app; [exact IH | repeat constructor |].
  intros x y Hx [<-|[]]. apply in_rev in Hx.
  rewrite Forall_forall in Ha. now apply Ha.
Qed.

Lemma FOP_map {B : Type} (g : A -> B) (R : B -> B -> Prop) (l : list A) :
  ForallOrdPairs R (map g l) <-> ForallOrdPairs (fun x y => R (g x) (g y)) l.
Proof.
  induction l as [|a l IH]; simpl.
  - split; constructor.
  - split; intros H; inversion H; subst; constructor;
      try (apply IH; assumption).
    + now apply Forall_map.
    + now apply Forall_map.
Qed.

Lemma FOP_impl (R S : A -> A -> Prop) (l : list A) :
  (forall x y, In x l -> In y l -> R x y -> S x y) ->
  ForallOrdPairs R l -> ForallOrdPairs S l.
Proof.
  intros HRS H; induction H as [|a l Ha _ IH]; [constructor|].
  constructor.
  - rewrite Forall_forall in *. intros y Hy.
    apply HRS; [now left | now right | now apply Ha].
  - apply IH. intros x y Hx Hy. apply HRS; now right.
Qed.
End OrdPairs.

Lemma filter_negb_perm {A : Type} (f : A -> bool) (l : list A) :
  Permutation (filter (fun x => negb (f x)) l ++ filter f l) l.
Proof.
  induction l as [|x l IH]; [constructor|].
  simpl. destruct (f x); simpl.
  - symmetry. apply Permutation_cons_app. now symmetry.
  - now constructor.
Qed.

(** ** [sort_values], row by row *)

Section SortValues.
Context {A : Type}.
Variable argsort : list float -> list nat.
Variable key : A -> float.

Abbreviation nan_key := (nan_key key).
Abbreviation num_key := (num_key key).

Lemma isna_map (df : list A) : isna (map key df) = map nan_key df.
Proof. unfold isna. now rewrite map_map. Qed.

Lemma notna_map (df : list A) :
  map negb (isna (map key df)) = map num_key df.
Proof. rewrite isna_map, map_map. reflexivity. Qed.

(** The keys given to the kernel are those of the non-NaN rows, last
    row first. *)
Lemma nargsort_keys_rows (df : list A) :
  nargsort_keys (map key df) = map key (rev (filter num_key df)).
Proof.
  unfold nargsort_keys.
  rewrite notna_map, getitem_mask_map_l, getitem_mask_map, map_rev.
  reflexivity.
Qed.

(** The sorted frame: the non-NaN rows, reversed, permuted by the kernel
    and reversed again, then the NaN rows in frame order. *)
Lemma sort_values_desc_rows (df : list A) :
  sort_values_desc argsort key df =
  rev (take (rev (filter num_key df))
            (argsort (map key (rev (filter num_key df)))))
  ++ filter nan_key df.
Proof.
  unfold sort_values_desc, nargsort_desc.
  rewrite nargsort_keys_rows, take_app, length_map.
  rewrite isna_map at 2. rewrite take_positions. f_equal.
  rewrite take_rev. f_equal.
  rewrite <- take_take.
  - rewrite take_rev, notna_map, take_positions. reflexivity.
  - apply Forall_rev, positions_lt.
Qed.

Theorem sort_values_desc_perm (df : list A) :
  sorts argsort (nargsort_keys (map key df)) ->
  Permutation (sort_values_desc argsort key df) df.
Proof.
  rewrite nargsort_keys_rows, sort_values_desc_rows. intros [Hp _].
  rewrite length_map in Hp. apply take_perm in Hp.
  rewrite <- Permutation_rev, Hp, <- Permutation_rev.
  apply (filter_negb_perm nan_key).
Qed.

Theorem sort_values_desc_descending (df : list A) :
  sorts argsort (nargsort_keys (map key df)) ->
  descending key (sort_values_desc argsort key df).
Proof.
  rewrite nargsort_keys_rows, sort_values_desc_rows. intros [_ Hs].
  rewrite take_map in Hs. apply FOP_map in Hs. apply FOP_rev in Hs.
  unfold descending. apply FOP_app.
  - revert Hs. apply FOP_impl. intros x y _ _ H. now right.
  - assert (Hn : Forall (fun r => is_nan (key r) = true) (filter nan_key df)).
    { apply Forall_forall. intros r Hr. now apply filter_In in Hr. }
    induction Hn as [|r l Hr Hl IH]; constructor; [|exact IH].
    revert Hl. apply Forall_impl. intros y Hy. now left.
  - intros x y _ Hy. apply filter_In in Hy. left. apply Hy.
Qed.
End SortValues.

(** ** The country table *)

Lemma filter_filter {A : Type} (f g : A -> bool) (l : list A) :
  filter f (filter g l) = filter (fun x => g x && f x) l.
Proof.
  induction l as [|x l IH]; [reflexivity|].
  simpl. destruct (g x); simpl; [destruct (f x)|]; now rewrite IH.
Qed.

Lemma drop_not_reported_rowwise df :
  drop_not_reported df =
  filter (fun r => cell_ne (Total_Production_TBq r) "NR") df.
Proof. unfold drop_not_reported. rewrite map_map. apply getitem_mask_map. Qed.

Lemma coerce_total_rowwise parse df :
  coerce_total parse df = map (coerced parse) df.
Proof.
  unfold coerce_total, coerced.
  induction df as [|r df IH]; [reflexivity|]. simpl in *. now rewrite IH.
Qed.

Lemma clean_country_production_rowwise parse df :
  clean_country_production parse df =
  map (coerced parse) (filter (survives parse) df).
Proof.
  unfold clean_country_production, dropna.
  rewrite getitem_mask_map, coerce_total_rowwise, drop_not_reported_rowwise.
  rewrite filter_map_swap, filter_filter. reflexivity.
Qed.

Lemma cell_ne_iff (c : cell) (s : string) : cell_ne c s = true <-> c <> Str s.
Proof.
  destruct c as [t|f]; simpl.
  - rewrite negb_true_iff, String.eqb_neq. split; congruence.
  - split; [discriminate | reflexivity].
Qed.

Lemma is_some_iff {T : Type} (o : option T) : is_some o = true <-> o <> None.
Proof. destruct o; simpl; split; congruence. Qed.

(** Coercion yields a number exactly for a number, or for text the parser
    reads as one: text that does not parse becomes NaN. *)
Lemma numeric_iff parse c :
  is_nan (to_numeric parse c) = false <-> numeric parse c.
Proof.
  destruct c as [s|f]; simpl; [|tauto].
  destruct (parse s) as [f|] eqn:E.
  - split; [intros H; exists f; auto | intros [f' [[= <-] H]]; exact H].
  - split; [intros H; discriminate H | intros [f' [H _]]; discriminate H].
Qed.

Lemma survives_iff parse r :
  survives parse r = true <-> reported_numeric parse r.
Proof.
  unfold survives, reported_numeric, notna_row, coerced.
  cbn [Country Major_Isotopes Total_Production_TBq set_total].
  rewrite !andb_true_iff, cell_ne_iff, !is_some_iff, negb_true_iff, numeric_iff.
  tauto.
Qed.

(** C3: the clean-up keeps, in order, exactly the rows whose production
    cell is not the sentinel ["NR"] and is numeric (and whose text fields
    are present), with the cell coerced; no row of the result has a NaN
    total; the table of one ["NR"] row becomes the empty table. *)
Theorem clean_country_production_sound :
  forall (parse : string -> option float) (country_df : list (country_row cell)),
    (exists kept,
        keeps_exactly (reported_numeric parse) country_df kept /\
        clean_country_production parse country_df = map (coerced parse) kept)
    /\ Forall (fun r => is_nan (Total_Production_TBq r) = false)
              (clean_country_production parse country_df)
    /\ (forall X M,
          clean_country_production parse [mk_country X M (Str "NR")] = []).
Proof.
  intros parse df. rewrite clean_country_production_rowwise. repeat split.
  - exists (filter (survives parse) df). split; [|reflexivity].
    apply keeps_exactly_filter, survives_iff.
  - apply Forall_forall. intros r Hr.
    apply in_map_iff in Hr as [r0 [<- Hr0]].
    apply filter_In in Hr0 as [_ Hs]. apply survives_iff in Hs.
    apply numeric_iff, Hs.
Qed.

Example clean_country_production_sample :
  map Total_Production_TBq
      (clean_country_production (fun _ => None) sample_country_data)
  = [30.4; 15000.0; 30.0; 4063.5; 982.4; 1551.9]%float.
Proof. vm_compute. reflexivity. Qed.

(** ** Loading the country table *)

(** C7: [load_country_data] returns a frame whatever the file system does;
    when the file is missing or reading it raises, the frame is the
    six-row sample, and at most one warning is emitted. *)
Theorem load_country_data_never_raises :
  forall fs : file_system,
    (exists df w, load_country_data fs = (Ok df, w) /\ length w <= 1)
    /\ (path_exists fs = false ->
        load_country_data fs = (Ok sample_country_data, []))
    /\ (forall e, path_exists fs = true -> read_csv fs = Raise e ->
        exists w, load_country_data fs = (Ok sample_country_data, [w]))
    /\ length sample_country_data = 6.
Proof.
  intros [ex rd]; unfold load_country_data; simpl. repeat split.
  - destruct ex; [destruct rd as [df|e]|]; eauto.
  - intros ->. reflexivity.
  - intros e -> ->. eauto.
Qed.

Lemma load_country_data_never_raises_witness :
  load_country_data (mk_fs false (Ok [])) = (Ok sample_country_data, [])
  /\ exists w,
       load_country_data
         (mk_fs true (Raise (PyException "ParserError" "Error tokenizing data")))
       = (Ok sample_country_data, [w]).
Proof.
  split.
  - destruct (load_country_data_never_raises (mk_fs false (Ok [])))
      as (_ & H & _). apply H. reflexivity.
  - destruct (load_country_data_never_raises
                (mk_fs true (Raise (PyException "ParserError"
                                      "Error tokenizing data"))))
      as (_ & _ & H & _).
    apply (H (PyException "ParserError" "Error tokenizing data"));
      reflexivity.
Defined.


(** ** Facts about binary64 comparisons *)

Lemma SFcompare_refl (f : spec_float) :
  f <> S754_nan -> SFcompare f f = Some Eq.
Proof.
  destruct f as [s|s| |s m e]; simpl; try congruence; intros _.
  - destruct s; reflexivity.
  - rewrite Z.compare_refl, Pos.compare_cont_refl. destruct s; reflexivity.
Qed.

Lemma is_nan_spec (x : float) : is_nan x = true <-> Prim2SF x = S754_nan.
Proof.
  unfold is_nan. rewrite eqb_spec, negb_true_iff. unfold SFeqb. split.
  - intros H. destruct (Prim2SF x) eqn:E; try reflexivity;
      rewrite SFcompare_refl in H by discriminate; discriminate.
  - intros ->. reflexivity.
Qed.

(** Nothing is equal to NaN. *)
Lemma eqb_nan_r (x y : float) : is_nan y = true -> (x =? y)%float = false.
Proof.
  rewrite is_nan_spec, eqb_spec. intros ->. unfold SFeqb.
  destruct (Prim2SF x); reflexivity.
Qed.

Lemma eqb_nan_l (x y : float) : is_nan x = true -> (x =? y)%float = false.
Proof.
  rewrite is_nan_spec, eqb_spec. intros ->. reflexivity.
Qed.

Lemma SFcompare_Eq_sym (f g : spec_float) :
  SFcompare f g = Some Eq -> SFcompare g f = Some Eq.
Proof.
  destruct f as [s|s| |s m e], g as [s'|s'| |s' m' e']; simpl;
    try discriminate; try reflexivity;
    try (destruct s; discriminate); try (destruct s'; discriminate);
    try (destruct s, s'; (discriminate || reflexivity)).
  destruct s, s'; try discriminate;
    destruct (Z.compare e e') eqn:Ee; try discriminate;
    apply Z.compare_eq in Ee; subst e';
    destruct (Pos.compare_cont Eq m m') eqn:Em; try discriminate;
    intros _; apply Pos.compare_eq in Em; subst m';
    rewrite Z.compare_refl, Pos.compare_cont_refl; reflexivity.
Qed.

Lemma eqb_sym (x y : float) : (x =? y)%float = true -> (y =? x)%float = true.
Proof.
  rewrite !eqb_spec. unfold SFeqb.
  destruct (SFcompare (Prim2SF x) (Prim2SF y)) as [[| |]|] eqn:E; try discriminate.
  intros _. now rewrite (SFcompare_Eq_sym _ _ E).
Qed.


(** ** Logarithm of the half-life *)



Lemma make_3d_points_rowwise log10_pos df :
  make_3d_points log10_pos df =
  Ok (map (fun r => mk_point3d (Protons r) (Neutrons r)
                      (np_log10 log10_pos (Half_Life r))
                      (Global_Production r) (Isotope r)) df).
Proof.
  unfold make_3d_points, log_half_life_series; simpl. f_equal.
  induction df as [|r df IH]; [reflexivity|]. simpl. now rewrite IH.
Qed.




Section Groups.
Context {A : Type}.
Variable use : A -> string.

Abbreviation group := (fun l u => filter (fun r => String.eqb (use r) u) l).




End Groups.








(** ** The decorative point cloud *)

Section BackgroundLemmas.
Context {G : Type}.
Variables (np_cos np_sin : float -> float).
Variable normal : float -> float -> G -> float * G.
Variable g : G.

Abbreviation step := (background_step np_cos np_sin normal).
Abbreviation point := (ring_point np_cos np_sin normal g).
Abbreviation after := (gen_after normal g).

Abbreviation holds := (background_invariant normal g).

Lemma gen_after_S n :
  after (S n) = snd (normal 0 0.1 (after n)).
Proof. reflexivity. Qed.

Lemma holds_step pts st i j :
  holds pts st -> length pts = 10 * i + j ->
  holds (pts ++ [point i j]) (step i j st).
Proof.
  intros (Hx & Hy & Hz & Hg) Hlen.
  unfold background_invariant. rewrite !map_app, length_app, Hlen.
  change (length [point i j]) with 1.
  unfold background_step, ring_point, draw. rewrite Hg, Hlen, Hx, Hy, Hz.
  remember (10 * i + j) as k eqn:Hk.
  replace (3 * (k + 1)) with (S (S (S (3 * k)))) by lia.
  replace (3 * k + 1) with (S (3 * k)) by lia.
  replace (3 * k + 2) with (S (S (3 * k))) by lia.
  rewrite !gen_after_S.
  remember (after (3 * k)) as g0 eqn:Hg0.
  destruct (normal 0 0.1 g0) as [e1 g1].
  cbn [fst snd].
  destruct (normal 0 0.1 g1) as [e2 g2].
  cbn [fst snd].
  destruct (normal 0 0.1 g2) as [e3 g3].
  cbn [fst snd bg_x bg_y bg_z bg_gen map].
  repeat split.
Qed.

Lemma holds_ring i m : forall pts st,
  holds pts st -> length pts = 10 * i ->
  holds (pts ++ map (point i) (seq 0 m))
        (fold_left (fun st j => step i j st) (seq 0 m) st).
Proof.
  induction m as [|m IH]; intros pts st H Hlen.
  - simpl. now rewrite app_nil_r.
  - rewrite (seq_S m 0), fold_left_app, map_app, app_assoc.
    cbn [map fold_left]. rewrite Nat.add_0_l.
    apply holds_step; [now apply IH|].
    rewrite length_app, length_map, length_seq. lia.
Qed.

Lemma rings_length n :
  length (flat_map (fun i => map (point i) (seq 0 10)) (seq 0 n)) = 10 * n.
Proof.
  induction n as [|n IH]; [reflexivity|].
  rewrite (seq_S n 0), flat_map_app, length_app, IH. simpl. lia.
Qed.

Lemma holds_rings n st :
  holds [] st ->
  holds (flat_map (fun i => map (point i) (seq 0 10)) (seq 0 n))
        (fold_left
           (fun st i => fold_left (fun st j => step i j st) (seq 0 10) st)
           (seq 0 n) st).
Proof.
  intros H0. induction n as [|n IH]; [exact H0|].
  rewrite (seq_S n 0), fold_left_app, flat_map_app.
  cbn [flat_map fold_left]. rewrite app_nil_r, Nat.add_0_l. apply holds_ring; [exact IH | apply rings_length].
Qed.

Lemma combine_coordinates (pts : list (float * float * float)) :
  combine (combine (map (fun p => fst (fst p)) pts)
                   (map (fun p => snd (fst p)) pts))
          (map snd pts) = pts.
Proof.
  induction pts as [|[[x y] z] pts IH]; [reflexivity|]. simpl. now rewrite IH.
Qed.

(** C8: [create_atomic_background] returns exactly 1000 points, one for
    each ring [i] below 100 and step [j] below 10, in loop order: the
    point at angle [2 pi j / 10] on the unit circle, at height [i / 10],
    each coordinate shifted by a draw of its own from [normal(0, 0.1)]. *)
Theorem create_atomic_background_points :
  length (fst (create_atomic_background np_cos np_sin normal g)) = 1000
  /\ fst (create_atomic_background np_cos np_sin normal g) =
     flat_map (fun i => map (fun j => ring_point np_cos np_sin normal g i j)
                            (seq 0 10))
              (seq 0 100).
Proof.
  assert (H : fst (create_atomic_background np_cos np_sin normal g) =
              flat_map (fun i => map (point i) (seq 0 10)) (seq 0 100)).
  { unfold create_atomic_background, background_loops. cbv zeta. cbn [fst].
    destruct (holds_rings 100 (mk_bg [] [] [] g)) as (Hx & Hy & Hz & _).
    - repeat split.
    - rewrite Hx, Hy, Hz. apply combine_coordinates. }
  split; [|exact H].
  rewrite H. apply (rings_length 100).
Qed.
End BackgroundLemmas.

(** ** The script *)

Lemma iloc0_selected (df : list isotope) (s : string) :
  In s (map Isotope df) ->
  exists r,
    iloc0 (getitem_mask df (map (fun x => String.eqb x s) (map Isotope df)))
    = Ok r /\ Isotope r = s.
Proof.
  rewrite map_map, getitem_mask_map.
  induction df as [|r df IH]; simpl; [intros []|].
  destruct (String.eqb (Isotope r) s) eqn:E.
  - intros _. exists r. split; [reflexivity | now apply String.eqb_eq].
  - intros [H|H]; [|now apply IH].
    apply String.eqb_neq in E. contradiction.
Qed.

Lemma load_country_data_ok (fs : file_system) :
  exists df w, load_country_data fs = (Ok df, w).
Proof.
  unfold load_country_data.
  destruct (path_exists fs); [destruct (read_csv fs)|]; eauto.
Qed.

(** With a selectbox value taken from the catalog the run completes, and
    this is the page. *)
Lemma main_runs {G : Type} (pf : platform G) (w : widgets) :
  In (selected_isotope w) (map Isotope get_isotope_data) ->
  exists iso country_df warned,
    load_country_data (files pf) = (Ok country_df, warned) /\
    Isotope iso = selected_isotope w /\
    main pf w =
    Ok (mk_page
          (if view_3d w then
             Some (fst (create_atomic_background (np_cos pf) (np_sin pf)
                          (normal pf) (generator pf)))
           else None)
          (map (fun r => mk_point3d (Protons r) (Neutrons r)
                           (np_log10 (log10_pos pf) (Half_Life r))
                           (Global_Production r) (Isotope r))
               (filter_isotopes get_isotope_data (half_life_filter w)
                                (selected_uses w)))
          iso
          (to_csv get_isotope_data)
          (scatter_traces get_isotope_data)
          (make_market_value_bars (argsort pf) get_isotope_data)
          (make_country_bars (argsort pf)
             (clean_country_production (parse_float pf) country_df))
          (map (fun r => (Country r, Major_Isotopes r)) country_df)
          warned).
Proof.
  intros Hsel.
  destruct (iloc0_selected _ _ Hsel) as [iso [Hiso Hname]].
  destruct (load_country_data_ok (files pf)) as [cdf [wn Hload]].
  exists iso, cdf, wn. split; [exact Hload|]. split; [exact Hname|].
  unfold main. rewrite make_3d_points_rowwise. cbn [bind].
  rewrite Hiso. cbn [bind]. rewrite Hload. reflexivity.
Qed.

(** C9 (as the code has it): the table offered for download is the whole
    isotope catalog as loaded, whatever the filter: the header is the
    index label and the nine source columns in frame order, followed by
    one line for each of the eight isotopes; no derived column is in it. *)
Theorem download_is_whole_catalog :
  forall (G : Type) (pf : platform G) (w : widgets),
    In (selected_isotope w) (map Isotope get_isotope_data) ->
    exists p,
      main pf w = Ok p
      /\ download p = to_csv get_isotope_data
      /\ hd [] (download p) = FStr "" :: map FStr isotope_columns
      /\ map (fun line => nth 1 line (FStr "")) (tl (download p))
         = map FStr (map Isotope get_isotope_data)
      /\ ~ In (FStr "Market_Value") (hd [] (download p)).
Proof.
  intros G pf w Hsel.
  destruct (main_runs pf w Hsel) as (iso & cdf & wn & _ & _ & Hmain).
  eexists. split; [exact Hmain|]. cbn [download].
  repeat split.
  simpl. intros H.
  repeat (destruct H as [H|H]; [discriminate H|]). exact H.
Qed.

Lemma download_is_whole_catalog_witness :
  exists p,
    main stand_in_platform default_widgets = Ok p
    /\ download p = to_csv get_isotope_data
    /\ hd [] (download p) = FStr "" :: map FStr isotope_columns
    /\ map (fun line => nth 1 line (FStr "")) (tl (download p))
       = map FStr (map Isotope get_isotope_data)
    /\ ~ In (FStr "Market_Value") (hd [] (download p)).
Proof.
  apply (download_is_whole_catalog unit stand_in_platform default_widgets).
  simpl. left. reflexivity.
Defined.

(** C9, as stated, fails: on a first run the filter keeps six isotopes,
    and the download still has a line for each of the eight, C-14 among
    them, and no market-value column. *)
Lemma download_ignores_filter :
  exists p,
    main stand_in_platform default_widgets = Ok p
    /\ map Isotope (filter_isotopes get_isotope_data
                      (half_life_filter default_widgets)
                      (selected_uses default_widgets))
       = ["Tc-99m"; "I-131"; "Co-60"; "Mo-99"; "Xe-133"; "Ir-192"]
    /\ map (fun line => nth 1 line (FStr "")) (tl (download p))
       = map FStr ["Tc-99m"; "I-131"; "Co-60"; "Mo-99"; "Xe-133"; "Ir-192";
                   "C-14"; "U-235"]
    /\ ~ In (FStr "Market_Value") (hd [] (download p)).
Proof.
  destruct (main_runs stand_in_platform default_widgets)
    as (iso & cdf & wn & _ & _ & Hmain).
  { simpl. left. reflexivity. }
  eexists. split; [exact Hmain|]. cbn [download].
  split; [vm_compute; reflexivity|]. split; [reflexivity|].
  simpl. intros H.
  repeat (destruct H as [H|H]; [discriminate H|]). exact H.
Qed.

(** C10: the values of the half-life slider and of the application
    multiselect reach the isotopes trace only: with any other filter
    values the run ends the same way and every other part of the page (the
    background, the details, the download, the log-log scatter, the
    market-value bars, the country bars and table, the warnings) is the
    same; the scatter and both bar charts are those of the whole catalog
    and of the cleaned country table. *)
Theorem filter_reaches_isotopes_trace_only :
  forall (G : Type) (pf : platform G) (w : widgets)
         (half_life : float * float) (uses : list string),
    map_result beside_isotopes_trace (main pf (with_filter w half_life uses))
    = map_result beside_isotopes_trace (main pf w)
    /\ map_result economic_scatter (main pf w)
       = map_result (fun _ => scatter_traces get_isotope_data) (main pf w)
    /\ map_result market_value_bars (main pf w)
       = map_result (fun _ => make_market_value_bars (argsort pf) get_isotope_data)
                    (main pf w)
    /\ map_result country_bars (main pf w)
       = map_result
           (fun _ => make_country_bars (argsort pf)
                       (clean_country_production (parse_float pf)
                          (loaded_country_data (files pf))))
           (main pf w).
Proof.
  intros G pf w hl uses.
  unfold main. rewrite !make_3d_points_rowwise. cbn [bind].
  cbn [with_filter selected_isotope view_3d].
  destruct (iloc0 _) as [iso|e]; cbn [bind map_result]; [|repeat split].
  destruct (load_country_data_ok (files pf)) as [cdf [wn Hload]].
  unfold loaded_country_data. rewrite Hload. cbn [bind map_result fst].
  repeat split.
Qed.

(** ** The order of ties *)

Lemma nth_nth_error {A : Type} (l : list A) (i : nat) (d : A) :
  nth i l d = match nth_error l i with Some x => x | None => d end.
Proof.
  revert i; induction l as [|x l IH]; intros [|i]; simpl; auto.
Qed.

Lemma take_map_nth {A : Type} (l : list A) (I : list nat) (d : A) :
  Forall (fun i => i < length l) I ->
  take l I = map (fun i => nth i l d) I.
Proof.
  induction 1 as [|i I Hi _ IH]; [reflexivity|].
  rewrite take_cons, IH. destruct (sel_lt l i Hi) as [x [E ->]].
  simpl. now rewrite nth_nth_error, E.
Qed.

Lemma FOP_nth {A : Type} (R : A -> A -> Prop) (l : list A) (d : A) :
  ForallOrdPairs R l ->
  forall i j, i < j < length l -> R (nth i l d) (nth j l d).
Proof.
  induction 1 as [|a l Ha _ IH]; intros i j Hij; simpl in Hij; [lia|].
  destruct j as [|j]; [lia|]. destruct i as [|i]; simpl.
  - rewrite Forall_forall in Ha. apply Ha, nth_In. lia.
  - apply IH. lia.
Qed.

Lemma FOP_all {A : Type} (R : A -> A -> Prop) (l : list A) :
  (forall x y, In x l -> In y l -> R x y) -> ForallOrdPairs R l.
Proof.
  induction l as [|a l IH]; intros H; constructor.
  - apply Forall_forall. intros y Hy. apply H; [now left | now right].
  - apply IH. intros x y Hx Hy. apply H; now right.
Qed.

Lemma getitem_mask_In {A : Type} (l : list A) (m : list bool) (x : A) :
  In x (getitem_mask l m) -> In x l.
Proof.
  unfold getitem_mask. intros H.
  apply in_map_iff in H as [[y b] [<- H]].
  apply filter_In in H as [H _]. now apply in_combine_l in H.
Qed.

(** The positions a mask keeps come in increasing order. *)
Lemma positions_increasing (m : list bool) (n s : nat) :
  ForallOrdPairs lt (getitem_mask (seq s n) m).
Proof.
  revert s m; induction n as [|n IH]; intros s [|b m]; try constructor.
  simpl seq. rewrite getitem_mask_cons.
  destruct b; [constructor|]; try apply IH.
  apply Forall_forall. intros q Hq.
  apply getitem_mask_In, in_seq in Hq. lia.
Qed.

(** A position a mask keeps holds a cell the mask accepts. *)
Lemma positions_accept {A : Type} (f : A -> bool) (l : list A) (q : nat) :
  In q (getitem_mask (seq 0 (length l)) (map f l)) ->
  exists x, nth_error l q = Some x /\ f x = true.
Proof.
  revert q; induction l as [|x l IH]; intros q; [intros []|].
  simpl length. simpl seq. simpl map.
  rewrite getitem_mask_cons, <- seq_shift, getitem_mask_map_l.
  intros H.
  assert (Hq : (q = 0 /\ f x = true) \/
               In q (map S (getitem_mask (seq 0 (length l)) (map f l)))).
  { destruct (f x); [destruct H as [<-|H]|]; auto. }
  destruct Hq as [[-> Hx]|Hq].
  - exists x. now split.
  - apply in_map_iff in Hq as [q' [<- Hq']]. simpl. now apply IH.
Qed.

Section Ties.
Variable argsort : list float -> list nat.
Variable items : list float.

Abbreviation keys := (nargsort_keys items).
Abbreviation non_nan_idx :=
  (rev (getitem_mask (seq 0 (length items)) (map negb (isna items)))).
Abbreviation nan_idx := (getitem_mask (seq 0 (length items)) (isna items)).

Lemma non_nan_idx_lt : Forall (fun j => j < length items) non_nan_idx.
Proof. apply Forall_rev, positions_lt. Qed.

(** The kernel's keys are the cells at the non-NaN positions, in the same
    (reversed) order. *)
Lemma take_non_nan_idx : take items non_nan_idx = keys.
Proof.
  unfold nargsort_keys, isna. rewrite take_rev, !map_map. f_equal.
  rewrite (take_positions (fun x => negb (is_nan x))).
  symmetry. apply getitem_mask_map.
Qed.

Lemma non_nan_idx_length : length non_nan_idx = length keys.
Proof.
  rewrite <- take_non_nan_idx. symmetry. apply take_length, non_nan_idx_lt.
Qed.

Lemma key_at_non_nan_idx (k : nat) :
  k < length non_nan_idx ->
  key_at items (nth k non_nan_idx 0) = key_at keys k.
Proof.
  intros Hk. unfold key_at.
  rewrite (nth_nth_error (nargsort_keys items) k nan), <- take_non_nan_idx.
  rewrite (take_nth_error items _ k non_nan_idx_lt).
  destruct (nth_error non_nan_idx k) as [j|] eqn:E.
  - rewrite (nth_error_nth _ _ 0 E). apply nth_nth_error.
  - apply nth_error_None in E. lia.
Qed.

Lemma non_nan_idx_decreasing :
  ForallOrdPairs (fun p q => q < p) non_nan_idx.
Proof. apply (FOP_rev lt), positions_increasing. Qed.

Lemma nan_idx_nan (q : nat) : In q nan_idx -> is_nan (key_at items q) = true.
Proof.
  intros H. apply (positions_accept is_nan) in H as [x [E Hx]].
  unfold key_at. now rewrite nth_nth_error, E.
Qed.

(** With a kernel that is stable on the keys it is given, [nargsort]
    keeps rows of equal key in frame order. *)
Theorem nargsort_desc_ties :
  sorts argsort keys -> stable_on argsort keys ->
  ties_in_order items (nargsort_desc argsort items).
Proof.
  intros [Hperm _] Hstable. unfold nargsort_desc, ties_in_order.
  assert (HK : Forall (fun k => k < length non_nan_idx) (argsort keys)).
  { apply Forall_forall. intros k Hk.
    apply (Permutation_in _ Hperm), in_seq in Hk.
    rewrite non_nan_idx_length. lia. }
  apply FOP_app.
  - rewrite (take_map_nth _ _ 0 HK).
    apply (FOP_rev (fun p q =>
             (key_at items q =? key_at items p)%float = true -> q < p)).
    apply FOP_map. revert Hstable. unfold stable_on, ties_in_order.
    apply FOP_impl. intros k1 k2 H1 H2 Hst Heq.
    rewrite Forall_forall in HK.
    rewrite !key_at_non_nan_idx in Heq by now apply HK.
    apply eqb_sym, Hst in Heq.
    apply (FOP_nth _ _ 0 non_nan_idx_decreasing k1 k2).
    split; [exact Heq | now apply HK].
  - apply FOP_all. intros p q _ Hq Heq.
    rewrite (eqb_nan_r _ _ (nan_idx_nan q Hq)) in Heq. discriminate.
  - intros p q _ Hq Heq.
    rewrite (eqb_nan_r _ _ (nan_idx_nan q Hq)) in Heq. discriminate.
Qed.
End Ties.

(** ** The two insertion kernels meet the argsort contract *)

Ltac rank_cases :=
  unfold lex_le, lex_lt; cbn [sf_rank fst snd];
  split; intros; try discriminate; try reflexivity; try lia.

Lemma SFleb_rank (f g : spec_float) :
  f <> S754_nan -> g <> S754_nan ->
  (SFleb f g = true <-> lex_le (sf_rank f) (sf_rank g)).
Proof.
  unfold SFleb.
  destruct f as [s|s| |s m e], g as [s'|s'| |s' m' e']; simpl;
    try congruence; intros _ _;
    try (destruct s); try (destruct s'); try solve [rank_cases];
    change (Pos.compare_cont Eq m m') with (Pos.compare m m');
    destruct (Z.compare_spec e e'); try solve [rank_cases];
    destruct (Pos.compare_spec m m'); simpl; solve [rank_cases].
Qed.

Lemma SFltb_rank (f g : spec_float) :
  f <> S754_nan -> g <> S754_nan ->
  (SFltb f g = true <-> lex_lt (sf_rank f) (sf_rank g)).
Proof.
  unfold SFltb.
  destruct f as [s|s| |s m e], g as [s'|s'| |s' m' e']; simpl;
    try congruence; intros _ _;
    try (destruct s); try (destruct s'); try solve [rank_cases];
    change (Pos.compare_cont Eq m m') with (Pos.compare m m');
    destruct (Z.compare_spec e e'); try solve [rank_cases];
    destruct (Pos.compare_spec m m'); simpl; solve [rank_cases].
Qed.

Lemma not_nan_spec (x : float) : is_nan x = false -> Prim2SF x <> S754_nan.
Proof.
  intros H E. apply is_nan_spec in E. congruence.
Qed.

Lemma leb_rank (x y : float) :
  is_nan x = false -> is_nan y = false ->
  ((x <=? y)%float = true <-> lex_le (rank x) (rank y)).
Proof.
  intros Hx Hy. rewrite leb_spec.
  apply SFleb_rank; now apply not_nan_spec.
Qed.

Lemma ltb_rank (x y : float) :
  is_nan x = false -> is_nan y = false ->
  ((x <? y)%float = true <-> lex_lt (rank x) (rank y)).
Proof.
  intros Hx Hy. rewrite ltb_spec.
  apply SFltb_rank; now apply not_nan_spec.
Qed.

Lemma leb_trans (x y z : float) :
  is_nan x = false -> is_nan y = false -> is_nan z = false ->
  (x <=? y)%float = true -> (y <=? z)%float = true -> (x <=? z)%float = true.
Proof.
  intros Hx Hy Hz. rewrite !leb_rank by assumption.
  unfold lex_le. lia.
Qed.

Lemma ltb_leb (x y : float) :
  is_nan x = false -> is_nan y = false ->
  (x <? y)%float = true -> (x <=? y)%float = true.
Proof.
  intros Hx Hy. rewrite leb_rank, ltb_rank by assumption.
  unfold lex_le, lex_lt. lia.
Qed.

Lemma not_ltb_leb (x y : float) :
  is_nan x = false -> is_nan y = false ->
  (x <? y)%float = false -> (y <=? x)%float = true.
Proof.
  intros Hx Hy H. apply leb_rank; try assumption.
  assert (H' : ~ lex_lt (rank x) (rank y)).
  { intros C. apply ltb_rank in C; try assumption. congruence. }
  unfold lex_le, lex_lt in *. lia.
Qed.

Lemma not_leb_leb (x y : float) :
  is_nan x = false -> is_nan y = false ->
  (x <=? y)%float = false -> (y <=? x)%float = true.
Proof.
  intros Hx Hy H. apply leb_rank; try assumption.
  assert (H' : ~ lex_le (rank x) (rank y)).
  { intros C. apply leb_rank in C; try assumption. congruence. }
  unfold lex_le in *. lia.
Qed.

Lemma in_combine_seq {A : Type} (a : list A) (s i : nat) (x : A) :
  In (i, x) (combine (seq s (length a)) a) ->
  s <= i /\ nth_error a (i - s) = Some x.
Proof.
  revert s; induction a as [|y a IH]; intros s; simpl; [intros []|].
  intros [E|H].
  - injection E as <- <-. rewrite Nat.sub_diag. split; [lia | reflexivity].
  - apply IH in H as [Hle Hn]. split; [lia|].
    replace (i - s) with (S (i - S s)) by lia. exact Hn.
Qed.

Lemma map_fst_combine_seq {A : Type} (a : list A) (s : nat) :
  map fst (combine (seq s (length a)) a) = seq s (length a).
Proof.
  revert s; induction a as [|y a IH]; intros s; [reflexivity|].
  simpl. now rewrite IH.
Qed.

Lemma take_indexed (a : list float) (l : list (nat * float)) :
  Forall (fun p => nth_error a (fst p) = Some (snd p)) l ->
  take a (map fst l) = map snd l.
Proof.
  induction 1 as [|p l Hp _ IH]; [reflexivity|].
  simpl map. rewrite take_cons, IH. unfold sel. now rewrite Hp.
Qed.

Section InsertionKernel.
Variable before : float -> float -> bool.
Hypothesis before_le : forall x y,
  is_nan x = false -> is_nan y = false ->
  before x y = true -> (x <=? y)%float = true.
Hypothesis before_ge : forall x y,
  is_nan x = false -> is_nan y = false ->
  before x y = false -> (y <=? x)%float = true.

Abbreviation ins := (fun acc x => insert_key before x acc).
Abbreviation key_le :=
  (fun p q : nat * float => (snd p <=? snd q)%float = true).
Abbreviation not_nan := (fun p : nat * float => is_nan (snd p) = false).

Lemma insert_key_perm x l : Permutation (insert_key before x l) (x :: l).
Proof.
  induction l as [|y l IH]; simpl; [reflexivity|].
  destruct (before (snd x) (snd y)); [reflexivity|].
  rewrite IH. apply perm_swap.
Qed.

Lemma fold_insert_perm xs : forall acc,
  Permutation (fold_left ins xs acc) (xs ++ acc).
Proof.
  induction xs as [|x xs IH]; intros acc; simpl; [reflexivity|].
  rewrite IH, insert_key_perm. symmetry. apply Permutation_middle.
Qed.

Lemma insert_key_sorted x l :
  not_nan x -> Forall not_nan l ->
  ForallOrdPairs key_le l -> ForallOrdPairs key_le (insert_key before x l).
Proof.
  intros Hx Hl Hs. induction Hs as [|y l Hy Hs IH]; simpl.
  - repeat constructor.
  - inversion Hl as [|? ? Hny Hnl]; subst.
    destruct (before (snd x) (snd y)) eqn:E.
    + apply before_le in E; try assumption.
      constructor; [|now constructor].
      constructor; [exact E|].
      rewrite Forall_forall in *. intros z Hz.
      apply (leb_trans _ (snd y)); auto.
    + apply before_ge in E; try assumption.
      constructor; [|now apply IH].
      rewrite Forall_forall in *. intros z Hz.
      apply (Permutation_in _ (insert_key_perm x l)) in Hz.
      destruct Hz as [<-|Hz]; auto.
Qed.

Lemma fold_insert_sorted xs : forall acc,
  Forall not_nan xs -> Forall not_nan acc ->
  ForallOrdPairs key_le acc ->
  ForallOrdPairs key_le (fold_left ins xs acc).
Proof.
  induction xs as [|x xs IH]; intros acc Hxs Hacc Hs; simpl; [exact Hs|].
  inversion Hxs; subst. apply IH; try assumption.
  - rewrite Forall_forall in *. intros z Hz.
    apply (Permutation_in _ (insert_key_perm x acc)) in Hz.
    destruct Hz as [<-|Hz]; auto.
  - now apply insert_key_sorted.
Qed.

(** Insertion sort over (position, key) pairs is an argsort of every array
    without NaN. *)
Theorem insertion_argsort_sorts (a : list float) :
  Forall (fun x => is_nan x = false) a ->
  sorts (insertion_argsort before) a.
Proof.
  intros Ha. unfold sorts, insertion_argsort.
  set (L := combine (seq 0 (length a)) a).
  assert (HP : Permutation (fold_left ins L []) L).
  { rewrite fold_insert_perm. now rewrite app_nil_r. }
  assert (HL : Forall (fun p => nth_error a (fst p) = Some (snd p)) L).
  { apply Forall_forall. intros [i x] Hi. apply in_combine_seq in Hi.
    simpl. now rewrite Nat.sub_0_r in Hi. }
  assert (HN : Forall not_nan L).
  { apply Forall_forall. intros [i x] Hi. apply in_combine_r in Hi.
    rewrite Forall_forall in Ha. now apply Ha. }
  split.
  - rewrite HP. unfold L. rewrite map_fst_combine_seq. reflexivity.
  - rewrite take_indexed.
    + apply FOP_map. apply fold_insert_sorted; auto. constructor.
    + rewrite Forall_forall in *. intros p Hp.
      apply HL. now apply (Permutation_in _ HP).
Qed.
End InsertionKernel.

Lemma nargsort_keys_not_nan (items : list float) :
  Forall (fun x => is_nan x = false) (nargsort_keys items).
Proof.
  unfold nargsort_keys, isna. rewrite map_map.
  rewrite (getitem_mask_map (fun x => negb (is_nan x))).
  apply Forall_rev, Forall_forall. intros x Hx.
  apply filter_In in Hx as [_ Hx]. now apply negb_true_iff in Hx.
Qed.

(** Both kernels sort whatever [nargsort] hands them. *)
Theorem argsort_stable_sorts (items : list float) :
  sorts argsort_stable (nargsort_keys items).
Proof.
  apply insertion_argsort_sorts.
  - intros x y Hx Hy. now apply ltb_leb.
  - intros x y Hx Hy. now apply not_ltb_leb.
  - apply nargsort_keys_not_nan.
Qed.

Theorem argsort_unstable_sorts (items : list float) :
  sorts argsort_unstable (nargsort_keys items).
Proof.
  apply insertion_argsort_sorts.
  - intros x y _ _ H. exact H.
  - intros x y Hx Hy. now apply not_leb_leb.
  - apply nargsort_keys_not_nan.
Qed.

(** ** The ranked bars *)

(** A concrete list is a rearrangement of another. *)
Ltac perm_concrete :=
  apply NoDup_Permutation_bis;
  [ repeat constructor; simpl; intuition discriminate
  | simpl; lia
  | intros ? ?; simpl in *; intuition auto ].

(** The argsort contract on a concrete array. *)
Ltac sorts_concrete :=
  split; vm_compute; [ perm_concrete | repeat constructor ].

(** Stability on a concrete array: every ordered pair of positions either
    holds different keys or stands in increasing order. *)
Ltac ties_concrete :=
  unfold stable_on;
  match goal with
  | |- ties_in_order ?a ?i =>
      let a' := eval vm_compute in a in
      let i' := eval vm_compute in i in
      change (ties_in_order a' i')
  end;
  unfold ties_in_order;
  repeat first [ apply FOP_nil | apply FOP_cons
               | apply Forall_nil | apply Forall_cons ];
  intros Htie; first [ lia | vm_compute in Htie; discriminate Htie ].

(** X23: the bars are the rows with their market
    value, read at the positions [nargsort] returns: a rearrangement of
    the frame in descending order of market value (NaN values last).  Rows
    of equal market value keep their input order when the argsort kernel
    is stable on the keys; the default kind does not promise that. *)
Theorem market_value_bars_sorted :
  forall (argsort : list float -> list nat) (df : list isotope),
    sorts argsort (nargsort_keys (map Market_Value (with_market_value df))) ->
    make_market_value_bars argsort df
    = take (with_market_value df) (market_value_order argsort df)
    /\ Permutation (make_market_value_bars argsort df) (with_market_value df)
    /\ descending Market_Value (make_market_value_bars argsort df)
    /\ (stable_on argsort
          (nargsort_keys (map Market_Value (with_market_value df))) ->
        ties_in_order (map Market_Value (with_market_value df))
                      (market_value_order argsort df)).
Proof.
  intros argsort df Hs. split; [reflexivity|]. split; [|split].
  - now apply sort_values_desc_perm.
  - now apply sort_values_desc_descending.
  - intros Hst. now apply nargsort_desc_ties.
Qed.

Lemma market_value_bars_sorted_witness :
  Permutation (make_market_value_bars argsort_stable tied_isotopes)
              (with_market_value tied_isotopes)
  /\ descending Market_Value (make_market_value_bars argsort_stable tied_isotopes)
  /\ ties_in_order (map Market_Value (with_market_value tied_isotopes))
                   (market_value_order argsort_stable tied_isotopes).
Proof.
  destruct (market_value_bars_sorted argsort_stable tied_isotopes)
    as (_ & Hperm & Hdesc & Hties).
  - sorts_concrete.
  - repeat split; [exact Hperm | exact Hdesc |].
    apply Hties. ties_concrete.
Defined.

Example market_value_bars_of_catalog :
  map (fun r => Isotope (base r))
      (make_market_value_bars argsort_stable get_isotope_data)
  = ["Mo-99"; "Tc-99m"; "Xe-133"; "I-131"; "C-14"; "U-235"; "Ir-192"; "Co-60"].
Proof. vm_compute. reflexivity. Qed.

(** C5 (as the code has it): the country bars are a rearrangement of the
    cleaned table in descending order of total production; the sort has
    no second key, so countries of equal production keep their table
    order when the argsort kernel is stable on the keys, whatever their
    names. *)
Theorem country_bars_sorted :
  forall (argsort : list float -> list nat) (df : list (country_row float)),
    sorts argsort (nargsort_keys (map Total_Production_TBq df)) ->
    make_country_bars argsort df = take df (country_order argsort df)
    /\ Permutation (make_country_bars argsort df) df
    /\ descending Total_Production_TBq (make_country_bars argsort df)
    /\ (stable_on argsort (nargsort_keys (map Total_Production_TBq df)) ->
        ties_in_order (map Total_Production_TBq df) (country_order argsort df)).
Proof.
  intros argsort df Hs. split; [reflexivity|]. split; [|split].
  - now apply sort_values_desc_perm.
  - now apply sort_values_desc_descending.
  - intros Hst. now apply nargsort_desc_ties.
Qed.

Lemma country_bars_sorted_witness :
  Permutation (make_country_bars argsort_stable germany_austria)
              germany_austria
  /\ descending Total_Production_TBq
                (make_country_bars argsort_stable germany_austria)
  /\ ties_in_order (map Total_Production_TBq germany_austria)
                   (country_order argsort_stable germany_austria).
Proof.
  destruct (country_bars_sorted argsort_stable germany_austria)
    as (_ & Hperm & Hdesc & Hties).
  - sorts_concrete.
  - repeat split; [exact Hperm | exact Hdesc |].
    apply Hties. ties_concrete.
Defined.

Example country_bars_of_sample :
  map Country
      (make_country_bars argsort_stable
         (clean_country_production (fun _ => None) sample_country_data))
  = [Some "Canada"; Some "France"; Some "Australia"; Some "Japan";
     Some "USA"; Some "Germany"].
Proof. vm_compute. reflexivity. Qed.

Lemma ties_by_name_pair (r1 r2 : country_row float) :
  ties_by_name [r1; r2] ->
  (Total_Production_TBq r1 =? Total_Production_TBq r2)%float = true ->
  name_le r1 r2 = true.
Proof.
  intros H. inversion H as [|? ? Hall _]; subst.
  inversion Hall; subst. assumption.
Qed.

(** C5, as stated, fails: Austria and Germany report the same production;
    whatever the argsort kernel does with two equal keys, one of the two
    tables (Austria first, Germany first) comes out with Germany before
    Austria. *)
Lemma country_bars_ties_not_by_name :
  ~ exists argsort : list float -> list nat,
      sorts argsort (nargsort_keys (map Total_Production_TBq austria_germany))
      /\ sorts argsort (nargsort_keys (map Total_Production_TBq germany_austria))
      /\ ties_by_name (make_country_bars argsort austria_germany)
      /\ ties_by_name (make_country_bars argsort germany_austria).
Proof.
  intros (argsort & [Hperm _] & _ & Hab & Hba).
  change (nargsort_keys (map Total_Production_TBq austria_germany))
    with [30.0; 30.0]%float in Hperm.
  unfold make_country_bars, sort_values_desc, nargsort_desc in Hab, Hba.
  change (nargsort_keys (map Total_Production_TBq austria_germany))
    with [30.0; 30.0]%float in Hab.
  change (nargsort_keys (map Total_Production_TBq germany_austria))
    with [30.0; 30.0]%float in Hba.
  change (seq 0 _) with [0; 1] in Hperm.
  apply Permutation_sym, Permutation_length_2_inv in Hperm.
  destruct Hperm as [E|E]; rewrite E in Hab, Hba.
  - apply ties_by_name_pair in Hba; [discriminate Hba | reflexivity].
  - apply ties_by_name_pair in Hab; [discriminate Hab | reflexivity].
Qed.


(** * Further properties of the script *)

(** ** The filter *)

Lemma leb_true_not_nan (x y : float) :
  (x <=? y)%float = true -> is_nan x = false /\ is_nan y = false.
Proof.
  rewrite leb_spec. intros H.
  split; apply not_true_iff_false; intros C; apply is_nan_spec in C;
    rewrite C in H; [|destruct (Prim2SF x)]; discriminate H.
Qed.

Lemma leb_trans_any (x y z : float) :
  (x <=? y)%float = true -> (y <=? z)%float = true -> (x <=? z)%float = true.
Proof.
  intros H1 H2.
  destruct (leb_true_not_nan _ _ H1) as [Hx Hy].
  destruct (leb_true_not_nan _ _ H2) as [_ Hz].
  exact (leb_trans x y z Hx Hy Hz H1 H2).
Qed.

Lemma filter_idem {A : Type} (f : A -> bool) (l : list A) :
  filter f (filter f l) = filter f l.
Proof.
  rewrite filter_filter. apply filter_ext. intros x. now destruct (f x).
Qed.

Lemma filter_absorb {A : Type} (f g : A -> bool) (l : list A) :
  (forall x, f x = true -> g x = true) ->
  filter f (filter g l) = filter f l.
Proof.
  intros H. rewrite filter_filter. apply filter_ext. intros x.
  destruct (f x) eqn:E; [now rewrite (H x E) | apply andb_false_r].
Qed.

(** X1: filtering twice with the same widget values changes nothing more. *)
Theorem filter_isotopes_idempotent :
  forall (df : list isotope) (half_life_filter : float * float)
         (selected_uses : list string),
    filter_isotopes (filter_isotopes df half_life_filter selected_uses)
                    half_life_filter selected_uses
    = filter_isotopes df half_life_filter selected_uses.
Proof.
  intros df [lo hi] uses. rewrite !filter_isotopes_rowwise. apply filter_idem.
Qed.

(** X2: a narrower range and fewer applications select from what the wider
    choice selected: filtering the wider result again gives the narrower
    result. *)
Theorem filter_isotopes_narrowing :
  forall (df : list isotope) (lo hi lo' hi' : float) (uses uses' : list string),
    (lo' <=? lo)%float = true -> (hi <=? hi')%float = true ->
    incl uses uses' ->
    filter_isotopes (filter_isotopes df (lo', hi') uses') (lo, hi) uses
    = filter_isotopes df (lo, hi) uses.
Proof.
  intros df lo hi lo' hi' uses uses' Hlo Hhi Hu.
  rewrite !filter_isotopes_rowwise. apply filter_absorb.
  intros r Hr. apply row_mask_accepted in Hr as (H1 & H2 & H3).
  apply row_mask_accepted. repeat split.
  - exact (leb_trans_any _ _ _ Hlo H1).
  - exact (leb_trans_any _ _ _ H2 Hhi).
  - now apply Hu.
Qed.

Lemma filter_isotopes_narrowing_witness :
  filter_isotopes
    (filter_isotopes get_isotope_data (1.0, 100000.0)%float
                     ["Medical"; "Industrial"])
    (5.0, 70.0)%float ["Medical"]
  = filter_isotopes get_isotope_data (5.0, 70.0)%float ["Medical"].
Proof.
  apply filter_isotopes_narrowing.
  - reflexivity.
  - reflexivity.
  - intros u [<-|[]]. left. reflexivity.
Defined.

(** X3: a range whose lower bound is not below its upper bound (an inverted
    range, or a NaN bound) selects nothing. *)
Theorem filter_isotopes_inverted_range :
  forall (df : list isotope) (lo hi : float) (uses : list string),
    (lo <=? hi)%float = false ->
    filter_isotopes df (lo, hi) uses = [].
Proof.
  intros df lo hi uses H. rewrite filter_isotopes_rowwise.
  induction df as [|r df IH]; [reflexivity|]. simpl.
  destruct (row_mask lo hi uses r) eqn:E; [|exact IH].
  apply row_mask_accepted in E as (H1 & H2 & _).
  rewrite (leb_trans_any _ _ _ H1 H2) in H. discriminate H.
Qed.

Lemma filter_isotopes_inverted_range_witness :
  filter_isotopes get_isotope_data (100.0, 1.0)%float
                  ["Medical"; "Industrial"; "Research"; "Energy"] = [].
Proof.
  apply filter_isotopes_inverted_range. reflexivity.
Defined.

(** X4: a row whose half-life is NaN passes no range. *)
Theorem filter_isotopes_drops_nan :
  forall (df : list isotope) (range : float * float) (uses : list string),
    Forall (fun r => is_nan (Half_Life r) = false)
           (filter_isotopes df range uses).
Proof.
  intros df [lo hi] uses. rewrite filter_isotopes_rowwise.
  apply Forall_forall. intros r Hr. apply filter_In in Hr as [_ Hr].
  apply row_mask_accepted in Hr as (H1 & _).
  now apply leb_true_not_nan in H1.
Qed.

(** ** Market value and the filter *)

(** X6: the market value is computed row by row: deriving it after the filter
    gives the rows that deriving it before the filter gives. *)
Theorem market_value_after_filter :
  forall (df : list isotope) (lo hi : float) (uses : list string),
    with_market_value (filter_isotopes df (lo, hi) uses)
    = filter (fun r => row_mask lo hi uses (base r)) (with_market_value df).
Proof.
  intros df lo hi uses.
  rewrite filter_isotopes_rowwise, !with_market_value_rowwise.
  rewrite filter_map_swap. reflexivity.
Qed.

(** ** The bars, whatever the kernel *)

Lemma take_In {A : Type} (l : list A) (I : list nat) (x : A) :
  In x (take l I) -> In x l.
Proof.
  unfold take. intros H. apply in_flat_map in H as [i [_ H]].
  unfold sel in H. destruct (nth_error l i) as [y|] eqn:E; [|destruct H].
  destruct H as [<-|[]]. now apply nth_error_In in E.
Qed.

Lemma take_nil {A : Type} (I : list nat) : take (@nil A) I = [].
Proof.
  induction I as [|i I IH]; [reflexivity|].
  rewrite take_cons, IH. unfold sel. now destruct i.
Qed.

(** X7: rows whose market value is NaN close the ranking, in frame order, and
    every row before them is a row of the frame with a market value that
    is a number; this needs nothing of the argsort kernel. *)
Theorem market_value_bars_nan_last :
  forall (argsort : list float -> list nat) (df : list isotope),
    exists front,
      make_market_value_bars argsort df
      = front ++ filter (nan_key Market_Value) (with_market_value df)
      /\ Forall (fun r => is_nan (Market_Value r) = false
                          /\ In r (with_market_value df)) front.
Proof.
  intros argsort df. unfold make_market_value_bars.
  rewrite sort_values_desc_rows. eexists. split; [reflexivity|].
  apply Forall_forall. intros r Hr.
  apply in_rev, take_In, in_rev, filter_In in Hr as [Hin Hnum].
  split; [|exact Hin]. now apply negb_true_iff in Hnum.
Qed.

(** ** The country chart *)


(** X9: a table in which no row is both reported and numeric gives a chart
    without bars, whatever the kernel returns. *)
Theorem country_bars_nothing_reported :
  forall (argsort : list float -> list nat) (parse : string -> option float)
         (country_df : list (country_row cell)),
    Forall (fun r => ~ reported_numeric parse r) country_df ->
    clean_country_production parse country_df = []
    /\ make_country_bars argsort (clean_country_production parse country_df)
       = [].
Proof.
  intros argsort parse df H.
  assert (E : clean_country_production parse df = []).
  { rewrite clean_country_production_rowwise.
    induction H as [|r l Hr _ IH]; [reflexivity|]. simpl.
    destruct (survives parse r) eqn:Es; [|exact IH].
    apply survives_iff in Es. contradiction. }
  rewrite E. split; [reflexivity|].
  unfold make_country_bars, sort_values_desc. apply take_nil.
Qed.

Lemma country_bars_nothing_reported_witness :
  clean_country_production (fun _ => Some 1%float)
    [mk_country (Some "Belgium") (Some "99Mo") (Str "NR");
     mk_country (Some "Chile") None (Str "12.5")] = []
  /\ make_country_bars argsort_unstable
       (clean_country_production (fun _ => Some 1%float)
          [mk_country (Some "Belgium") (Some "99Mo") (Str "NR");
           mk_country (Some "Chile") None (Str "12.5")]) = [].
Proof.
  apply country_bars_nothing_reported.
  constructor; [intros (H1 & _); now apply H1|].
  constructor; [intros (_ & _ & _ & H4); now apply H4|].
  constructor.
Defined.

(** X10: the sentinel is removed before any text is parsed: two parsers that
    agree on every text but ["NR"] clean a table to the same rows. *)
Theorem clean_country_production_sentinel_first :
  forall (parse parse' : string -> option float)
         (country_df : list (country_row cell)),
    (forall s, s <> "NR" -> parse s = parse' s) ->
    clean_country_production parse country_df
    = clean_country_production parse' country_df.
Proof.
  intros parse parse' df H. rewrite !clean_country_production_rowwise.
  assert (E : forall r, cell_ne (Total_Production_TBq r) "NR" = true ->
                        coerced parse r = coerced parse' r).
  { intros r. unfold coerced, to_numeric.
    destruct (Total_Production_TBq r) as [s|f]; [|reflexivity].
    simpl. rewrite negb_true_iff, String.eqb_neq. intros Hs.
    now rewrite (H s Hs). }
  assert (Es : forall r, survives parse r = survives parse' r).
  { intros r. unfold survives.
    destruct (cell_ne (Total_Production_TBq r) "NR") eqn:Ene; [|reflexivity].
    now rewrite (E r Ene). }
  rewrite (filter_ext _ _ Es). apply map_ext_in. intros r Hr.
  apply filter_In in Hr as [_ Hr]. unfold survives in Hr.
  apply andb_true_iff in Hr as [Hr _]. now apply E.
Qed.

Lemma clean_country_production_sentinel_first_witness :
  clean_country_production (fun _ => None)
    [mk_country (Some "Belgium") (Some "99Mo") (Str "NR")]
  = clean_country_production
      (fun s => if String.eqb s "NR" then Some 0%float else None)
      [mk_country (Some "Belgium") (Some "99Mo") (Str "NR")].
Proof.
  apply clean_country_production_sentinel_first.
  intros s Hs. apply String.eqb_neq in Hs. now rewrite Hs.
Defined.

(** X11: a table that is already numeric and complete goes through the
    clean-up unchanged: every row stays, in order, with its number. *)
Theorem clean_country_production_numeric_table :
  forall (parse : string -> option float) (df : list (country_row float)),
    Forall (fun r => notna_row r = true) df ->
    clean_country_production parse
      (map (fun r => set_total r (Num (Total_Production_TBq r))) df)
    = df.
Proof.
  intros parse df H. rewrite clean_country_production_rowwise.
  induction H as [|r l Hr _ IH]; [reflexivity|].
  simpl. unfold survives at 1. simpl.
  assert (Er : coerced parse (set_total r (Num (Total_Production_TBq r))) = r)
    by now destruct r.
  rewrite Er, Hr. simpl. now rewrite Er, IH.
Qed.

Lemma clean_country_production_numeric_table_witness :
  clean_country_production (fun _ => None)
    (map (fun r => set_total r (Num (Total_Production_TBq r))) germany_austria)
  = germany_austria.
Proof.
  apply clean_country_production_numeric_table.
  repeat constructor.
Defined.

(** ** Loading the country table, the other paths *)

(** X12: a file that is there and reads well is returned as it is, silently;
    a warning is emitted exactly when the file is there and reading it
    raised, and it carries the exception's message; a file that is not
    there is never read. *)
Theorem load_country_data_paths :
  forall (fs : file_system),
    (forall df, path_exists fs = true -> read_csv fs = Ok df ->
                load_country_data fs = (Ok df, []))
    /\ (snd (load_country_data fs) <> [] <->
        path_exists fs = true /\ raises (read_csv fs))
    /\ (forall e, path_exists fs = true -> read_csv fs = Raise e ->
                  snd (load_country_data fs)
                  = [("Could not load country data: " ++ exn_message e)%string])
    /\ (forall r, path_exists fs = false ->
                  load_country_data fs
                  = load_country_data (mk_fs false r)).
Proof.
  intros [ex rd]. unfold load_country_data, raises; simpl.
  split; [|split; [|split]].
  - intros df -> ->. reflexivity.
  - destruct ex; [destruct rd as [df|e]|]; simpl; split;
      try congruence; try (intros [_ [e' He]]; congruence);
      try (intros [He _]; congruence).
    intros _. split; eauto.
  - intros e -> ->. reflexivity.
  - intros r ->. reflexivity.
Qed.

Lemma load_country_data_paths_witness :
  load_country_data
    (mk_fs true (Ok [mk_country (Some "Belgium") (Some "99Mo") (Str "NR")]))
  = (Ok [mk_country (Some "Belgium") (Some "99Mo") (Str "NR")], []).
Proof.
  destruct (load_country_data_paths
              (mk_fs true
                 (Ok [mk_country (Some "Belgium") (Some "99Mo") (Str "NR")])))
    as (H & _).
  apply H; reflexivity.
Defined.

(** ** The style sheet *)

(** X14: [local_css] never raises and emits exactly one element: the fallback
    style when the file is not there, the file's text between style tags
    (unescaped) when it reads well, and only a warning, with no style at
    all, when reading raises. *)
Theorem local_css_one_element :
  forall (f : text_file),
    (exists el, local_css f = (Ok tt, [el]))
    /\ (file_exists f = false ->
        local_css f = (Ok tt, [Markdown fallback_style]))
    /\ (forall content, file_exists f = true -> file_read f = Ok content ->
        local_css f
        = (Ok tt, [Markdown ("<style>" ++ content ++ "</style>")%string]))
    /\ (forall e, file_exists f = true -> file_read f = Raise e ->
        local_css f
        = (Ok tt, [Warning ("CSS loading failed: " ++ exn_message e)%string])).
Proof.
  intros [ex rd]. unfold local_css; simpl. repeat split.
  - destruct ex; [destruct rd|]; simpl; eauto.
  - intros ->. reflexivity.
  - intros c -> ->. reflexivity.
  - intros e -> ->. reflexivity.
Qed.

Lemma local_css_one_element_witness :
  local_css (mk_text_file true (Raise (PyException "PermissionError" "denied")))
  = (Ok tt, [Warning "CSS loading failed: denied"])
  /\ local_css (mk_text_file false (Ok "h1 { color: red; }"))
     = (Ok tt, [Markdown fallback_style]).
Proof.
  split.
  - destruct (local_css_one_element
                (mk_text_file true
                   (Raise (PyException "PermissionError" "denied"))))
      as (_ & _ & _ & H).
    apply (H (PyException "PermissionError" "denied")); reflexivity.
  - destruct (local_css_one_element
                (mk_text_file false (Ok "h1 { color: red; }")))
      as (_ & H & _).
    apply H. reflexivity.
Defined.

(** ** The applications tab *)

Lemma dict_getitem_keys {V : Type} (d : list (string * V)) (key : string) :
  In key (dict_keys d) <-> exists v, dict_getitem d key = Ok v.
Proof.
  induction d as [|[k v] d IH]; simpl.
  - split; [intros [] | intros [v H]; discriminate H].
  - destruct (String.eqb k key) eqn:E.
    + apply String.eqb_eq in E. split; eauto.
    + apply String.eqb_neq in E. rewrite <- IH. tauto.
Qed.

Lemma dict_getitem_In {V : Type} (d : list (string * V)) (key : string) (v : V) :
  dict_getitem d key = Ok v -> In (key, v) d.
Proof.
  induction d as [|[k v'] d IH]; simpl; [discriminate|].
  destruct (String.eqb k key) eqn:E.
  - apply String.eqb_eq in E. intros [= ->]. left. now subst.
  - intros H. right. now apply IH.
Qed.

(** X15: the bullets of a sector are rendered exactly when the sector is a key
    of the dict, which is what the selectbox offers; then there is one
    bullet for each entry of the sector, in order, and any other string
    raises [KeyError] naming it. *)
Theorem application_bullets_of_key :
  forall (d : list (string * list string)) (selected_app : string),
    (In selected_app (dict_keys d) <->
     exists apps,
       In (selected_app, apps) d /\
       application_bullets d selected_app
       = Ok (map (fun app => Markdown ("- " ++ app)%string) apps))
    /\ (~ In selected_app (dict_keys d) <->
        application_bullets d selected_app
        = Raise (PyException "KeyError" selected_app)).
Proof.
  intros d s. unfold application_bullets. split.
  - rewrite dict_getitem_keys. split.
    + intros [v Hv]. exists v. split; [now apply dict_getitem_In|].
      now rewrite Hv.
    + intros [v [_ Hv]]. destruct (dict_getitem d s) as [v'|e]; eauto.
      discriminate Hv.
  - induction d as [|[k v] d IH]; simpl.
    + split; [reflexivity | intros _ []].
    + destruct (String.eqb k s) eqn:E.
      * apply String.eqb_eq in E. split; [intros H; exfalso; auto|].
        simpl. discriminate.
      * apply String.eqb_neq in E. rewrite <- IH. tauto.
Qed.

Example application_bullets_research :
  application_bullets applications "Research"
  = Ok [Markdown "- C-14: Carbon dating"; Markdown "- H-3: Tracer studies"].
Proof. reflexivity. Qed.

(** ** The random generator *)

(** X16: building the point cloud makes exactly 3000 draws: the generator is
    left in the state that 3000 calls of [normal(0, 0.1)] lead to. *)
Theorem create_atomic_background_draws :
  forall (G : Type) (np_cos np_sin : float -> float)
         (normal : float -> float -> G -> float * G) (g : G),
    snd (create_atomic_background np_cos np_sin normal g)
    = gen_after normal g 3000.
Proof.
  intros G np_cos np_sin normal g.
  unfold create_atomic_background, background_loops. cbv zeta. cbn [snd].
  destruct (holds_rings np_cos np_sin normal g 100 (mk_bg [] [] [] g))
    as (_ & _ & _ & Hg).
  - repeat split.
  - rewrite Hg, rings_length. reflexivity.
Qed.

(** ** The CSV download, line by line *)

(** ** One run of the script *)

Lemma scatter_of_catalog :
  make_scatter_points get_isotope_data = Ok (scatter_traces get_isotope_data).
Proof. reflexivity. Qed.

Lemma filter_isotopes_no_use (df : list isotope) (lo hi : float) :
  filter_isotopes df (lo, hi) [] = [].
Proof.
  rewrite filter_isotopes_rowwise.
  induction df as [|r df IH]; [reflexivity|].
  simpl. unfold row_mask at 1; simpl. now rewrite andb_false_r.
Qed.

(** X19: the isotopes trace has one marker for each row the filter keeps, in
    frame order, labelled with the isotope and placed at (protons,
    neutrons); with no application selected the trace is empty. *)
Theorem isotopes_trace_of_filter :
  forall (G : Type) (pf : platform G) (w : widgets),
    map_result
      (fun p => map (fun m => (p_text m, p_x m, p_y m, p_color m))
                    (isotopes_trace p)) (main pf w)
    = map_result
        (fun _ => map (fun r => (Isotope r, Protons r, Neutrons r,
                                 Global_Production r))
                      (filter_isotopes get_isotope_data (half_life_filter w)
                                       (selected_uses w))) (main pf w)
    /\ map_result isotopes_trace
         (main pf (with_filter w (half_life_filter w) []))
       = map_result (fun _ => []) (main pf w).
Proof.
  intros G pf w. unfold main. rewrite !make_3d_points_rowwise. cbn [bind].
  cbn [with_filter selected_isotope view_3d half_life_filter selected_uses].
  destruct (iloc0 _) as [iso|e]; cbn [bind map_result]; [|repeat split].
  destruct (load_country_data_ok (files pf)) as [cdf [wn Hload]].
  rewrite Hload, scatter_of_catalog.
  cbn [bind map_result isotopes_trace]. split.
  - now rewrite map_map.
  - destruct (half_life_filter w) as [lo hi].
    now rewrite filter_isotopes_no_use.
Qed.

Lemma iloc0_selected_In (df : list isotope) (s : string) (r : isotope) :
  iloc0 (getitem_mask df (map (fun x => String.eqb x s) (map Isotope df)))
  = Ok r ->
  In r df /\ Isotope r = s.
Proof.
  rewrite map_map, getitem_mask_map.
  destruct (filter _ df) as [|r0 l] eqn:E; simpl; [discriminate|].
  intros [= <-].
  assert (H : In r0 (filter (fun x => String.eqb (Isotope x) s) df))
    by (rewrite E; now left).
  apply filter_In in H as [Hin Hs]. split; [exact Hin|].
  now apply String.eqb_eq.
Qed.

Lemma NoDup_map_eq {A B : Type} (f : A -> B) (l : list A) (a b : A) :
  NoDup (map f l) -> In a l -> In b l -> f a = f b -> a = b.
Proof.
  induction l as [|x l IH]; simpl; [intros _ []|].
  intros Hnd Ha Hb E. inversion Hnd as [|? ? Hx Hl]; subst.
  destruct Ha as [->|Ha], Hb as [->|Hb]; auto.
  - exfalso. apply Hx. rewrite E. now apply in_map.
  - exfalso. apply Hx. rewrite <- E. now apply in_map.
Qed.

Lemma catalog_names_NoDup : NoDup (map Isotope get_isotope_data).
Proof.
  simpl. repeat constructor; simpl; intuition discriminate.
Qed.

(** X20: the details panel shows the isotope the selectbox names: the row the
    run looks up is the one row of the catalog with that name. *)
Theorem iso_data_is_selected :
  forall (G : Type) (pf : platform G) (w : widgets),
    In (selected_isotope w) (map Isotope get_isotope_data) ->
    exists p,
      main pf w = Ok p
      /\ In (iso_data p) get_isotope_data
      /\ Isotope (iso_data p) = selected_isotope w
      /\ (forall r, In r get_isotope_data ->
                    Isotope r = selected_isotope w -> r = iso_data p).
Proof.
  intros G pf w Hsel.
  destruct (iloc0_selected _ _ Hsel) as [iso [Hiso _]].
  destruct (iloc0_selected_In _ _ _ Hiso) as [Hin Hname].
  destruct (load_country_data_ok (files pf)) as [cdf [wn Hload]].
  eexists. split.
  - unfold main. rewrite make_3d_points_rowwise. cbn [bind].
    rewrite Hiso, scatter_of_catalog. cbn [bind]. rewrite Hload.
    reflexivity.
  - cbn [iso_data]. repeat split; try assumption.
    intros r Hr Er.
    apply (NoDup_map_eq Isotope get_isotope_data); try assumption.
    + exact catalog_names_NoDup.
    + congruence.
Qed.

Lemma iso_data_is_selected_witness :
  exists p,
    main stand_in_platform default_widgets = Ok p
    /\ In (iso_data p) get_isotope_data
    /\ Isotope (iso_data p) = selected_isotope default_widgets
    /\ (forall r, In r get_isotope_data ->
                  Isotope r = selected_isotope default_widgets ->
                  r = iso_data p).
Proof.
  apply (iso_data_is_selected unit stand_in_platform default_widgets).
  simpl. left. reflexivity.
Defined.

(** X21: the table of major isotopes lists every row of the loaded country
    table, not-reported rows included, and every bar of the country chart
    is a country of that table. *)
Theorem country_table_is_unfiltered :
  forall (G : Type) (pf : platform G) (w : widgets),
    In (selected_isotope w) (map Isotope get_isotope_data) ->
    exists p,
      main pf w = Ok p
      /\ major_isotopes p
         = map (fun r => (Country r, Major_Isotopes r))
               (loaded_country_data (files pf))
      /\ Forall (fun r => In (Country r, Major_Isotopes r) (major_isotopes p))
                (country_bars p).
Proof.
  intros G pf w Hsel.
  destruct (iloc0_selected _ _ Hsel) as [iso [Hiso _]].
  destruct (load_country_data_ok (files pf)) as [cdf [wn Hload]].
  eexists. split.
  - unfold main. rewrite make_3d_points_rowwise. cbn [bind].
    rewrite Hiso, scatter_of_catalog. cbn [bind]. rewrite Hload.
    reflexivity.
  - cbn [major_isotopes country_bars]. unfold loaded_country_data.
    rewrite Hload. cbn [fst]. split; [reflexivity|].
    apply Forall_forall. intros r Hr.
    unfold make_country_bars, sort_values_desc in Hr. apply take_In in Hr.
    rewrite clean_country_production_rowwise in Hr.
    apply in_map_iff in Hr as [r0 [<- Hr0]].
    apply filter_In in Hr0 as [Hin _].
    apply in_map_iff. exists r0. split; [reflexivity | exact Hin].
Qed.

Lemma country_table_is_unfiltered_witness :
  exists p,
    main stand_in_platform default_widgets = Ok p
    /\ major_isotopes p
       = map (fun r => (Country r, Major_Isotopes r))
             (loaded_country_data (files stand_in_platform))
    /\ Forall (fun r => In (Country r, Major_Isotopes r) (major_isotopes p))
              (country_bars p).
Proof.
  apply (country_table_is_unfiltered unit stand_in_platform default_widgets).
  simpl. left. reflexivity.
Defined.

Lemma background_length {G : Type} (np_cos np_sin : float -> float)
    (normal : float -> float -> G -> float * G) (g : G) :
  length (fst (create_atomic_background np_cos np_sin normal g)) = 1000.
Proof.
  unfold create_atomic_background, background_loops. cbv zeta. cbn [fst].
  destruct (holds_rings np_cos np_sin normal g 100 (mk_bg [] [] [] g))
    as (Hx & Hy & Hz & _).
  - repeat split.
  - rewrite Hx, Hy, Hz, combine_coordinates. apply (rings_length _ _ _ _ 100).
Qed.

(** X22: the background trace is there exactly when the checkbox is ticked,
    and then it has 1000 points; unticked, no point cloud is built. *)
Theorem atomic_structure_of_checkbox :
  forall (G : Type) (pf : platform G) (w : widgets),
    map_result (fun p => option_map (@length _) (atomic_structure p))
               (main pf w)
    = map_result (fun _ => if view_3d w then Some 1000 else None) (main pf w).
Proof.
  intros G pf w. unfold main. rewrite make_3d_points_rowwise. cbn [bind].
  destruct (iloc0 _) as [iso|e]; cbn [bind map_result]; [|reflexivity].
  destruct (load_country_data_ok (files pf)) as [cdf [wn Hload]].
  rewrite Hload, scatter_of_catalog. cbn [bind map_result atomic_structure].
  destruct (view_3d w); [|reflexivity].
  cbn [option_map]. now rewrite background_length.
Qed.

(** ** More on the filter and the fallback *)

(** X5: the filter reads the selected applications as a set: the order of the
    multiselect and repeated entries make no difference. *)
Theorem filter_isotopes_uses_as_set :
  forall (df : list isotope) (range : float * float) (uses uses' : list string),
    (forall u, In u uses <-> In u uses') ->
    filter_isotopes df range uses = filter_isotopes df range uses'.
Proof.
  intros df [lo hi] uses uses' H. rewrite !filter_isotopes_rowwise.
  apply filter_ext. intros r. unfold row_mask. f_equal.
  apply eq_true_iff_eq. rewrite !existsb_exists.
  split; intros [u [Hu E]]; exists u; (split; [now apply H | exact E]).
Qed.

Lemma filter_isotopes_uses_as_set_witness :
  filter_isotopes get_isotope_data (1.0, 100000.0)%float
                  ["Medical"; "Industrial"]
  = filter_isotopes get_isotope_data (1.0, 100000.0)%float
                    ["Industrial"; "Medical"; "Industrial"].
Proof.
  apply filter_isotopes_uses_as_set. intros u. simpl. tauto.
Defined.

(** X13: when the CSV file is missing or cannot be read, the country chart
    still has a bar for each of the six sample countries, whatever the
    parser does: the sample needs no parsing and loses no row. *)
Theorem country_bars_of_fallback :
  forall (fs : file_system) (parse : string -> option float)
         (argsort : list float -> list nat),
    path_exists fs = false \/ raises (read_csv fs) ->
    sorts argsort
          (nargsort_keys
             (map Total_Production_TBq
                  (clean_country_production parse sample_country_data))) ->
    Permutation
      (map Country
           (make_country_bars argsort
              (clean_country_production parse (loaded_country_data fs))))
      [Some "USA"; Some "Canada"; Some "Germany"; Some "France";
       Some "Japan"; Some "Australia"].
Proof.
  intros [ex rd] parse argsort Hfail Hs.
  assert (E : loaded_country_data (mk_fs ex rd) = sample_country_data).
  { unfold loaded_country_data, load_country_data; simpl.
    destruct ex; [|reflexivity].
    destruct Hfail as [H|[e H]]; [discriminate H|].
    simpl in H. now rewrite H. }
  rewrite E.
  rewrite (Permutation_map Country
             (sort_values_desc_perm argsort Total_Production_TBq _ Hs)).
  reflexivity.
Qed.

Lemma country_bars_of_fallback_witness :
  Permutation
    (map Country
         (make_country_bars argsort_stable
            (clean_country_production (fun _ => None)
               (loaded_country_data
                  (mk_fs true (Raise (PyException "ParserError"
                                        "Error tokenizing data")))))))
    [Some "USA"; Some "Canada"; Some "Germany"; Some "France";
     Some "Japan"; Some "Australia"].
Proof.
  apply country_bars_of_fallback.
  - right. eexists. reflexivity.
  - sorts_concrete.
Defined.
